(** * Persistent Tic-Tac-Toe backend: the game core and the move submission handler

    A shallow embedding of [api/core.py], of the statements of
    [api/database.py] that the move handler runs, and of
    [api_submit_move] and [_deserialize_board] of [api/main.py].

    Python values are modelled as they occur in the code: a cell is an
    [Optional[str]] ([None], or a string such as 'X', 'O' or the legacy
    empty string), a board is a list of rows, integers are [Z], and an
    operation that can raise returns a [result]. *)

From Stdlib Require Import Ascii String.
From stdpp Require Import base numbers option list strings gmap pretty.

Set Warnings "-register-all".

Open Scope string_scope.
Open Scope list_scope.
Open Scope Z_scope.

(** ** Results of Python calls *)

Inductive pyexc := IndexError | TypeError | JSONDecodeError.

(** A call returns a value, raises [HTTPException(status_code, detail)],
    or raises another exception. *)
Inductive result (A : Type) :=
  | Ok (a : A)
  | HTTPException (status_code : Z) (detail : string)
  | Raise (e : pyexc).
Arguments Ok {A} a.
Arguments HTTPException {A} status_code detail.
Arguments Raise {A} e.

#[global] Instance result_ret : MRet result := @Ok.
#[global] Instance result_bind : MBind result := λ A B f m,
  match m with
  | Ok a => f a
  | HTTPException c d => HTTPException c d
  | Raise e => Raise e
  end.

(** ** Python lists: indexing and item assignment *)

(** Position addressed by index [i] in a list of length [len]: negative
    indices count from the end, anything else is out of range. *)
Definition py_index (len : nat) (i : Z) : option nat :=
  if bool_decide (0 ≤ i < Z.of_nat len) then Some (Z.to_nat i)
  else if bool_decide (- Z.of_nat len ≤ i < 0) then Some (Z.to_nat (Z.of_nat len + i))
  else None.

(** [l[i]] *)
Definition getitem {A} (l : list A) (i : Z) : result A :=
  match py_index (length l) i with
  | Some n => match l !! n with Some a => Ok a | None => Raise IndexError end
  | None => Raise IndexError
  end.

(** [l[i] = v], as the list after the assignment *)
Definition setitem {A} (l : list A) (i : Z) (v : A) : result (list A) :=
  match py_index (length l) i with
  | Some n => Ok (<[n:=v]> l)
  | None => Raise IndexError
  end.

(** ** core.py *)

Module core.

(** [Optional[PlayerSymbol]]: [None] is Python's None, [Some s] the string [s]. *)
Definition cell := option string.
Definition row := list cell.
Definition board := list row.

(** [c is None or c == ''] *)
Definition is_empty_cell (c : cell) : bool :=
  match c with
  | None => true
  | Some s => bool_decide (s = EmptyString)
  end.

(** Truth value of a cell in a condition: None and '' are false. *)
Definition truthy (c : cell) : bool :=
  match c with
  | None => false
  | Some s => negb (bool_decide (s = EmptyString))
  end.

Definition empty_board : board := replicate 3 (replicate 3 None).

(** [board[i][j]] *)
Definition at2 (b : board) (i j : Z) : result cell :=
  r ← getitem b i; getitem r j.

Definition is_valid_move (b : board) (x y : Z) : result bool :=
  if (0 <=? x) && (x <? 3) && (0 <=? y) && (y <? 3) then
    c ← at2 b x y; Ok (is_empty_cell c)
  else Ok false.

(** [new_board] is a list of copies of the rows, so the assignment
    [new_board[x][y] = symbol] changes row [x] of [new_board] only. *)
Definition make_move (b : board) (x y : Z) (symbol : string) : result board :=
  let new_board := b in
  r ← getitem new_board x;
  r' ← setitem r y (Some symbol);
  setitem new_board x r'.

(** The body of [for i in range(3)]: a row, then a column. *)
Fixpoint rows_cols (b : board) (indices : list Z) : result (list row) :=
  match indices with
  | [] => Ok []
  | i :: rest_indices =>
      r ← getitem b i;
      c0 ← at2 b 0 i; c1 ← at2 b 1 i; c2 ← at2 b 2 i;
      rest ← rows_cols b rest_indices;
      Ok (r :: [c0; c1; c2] :: rest)
  end.

Definition build_lines (b : board) : result (list row) :=
  rc ← rows_cols b [0; 1; 2];
  d0 ← at2 b 0 0; d1 ← at2 b 1 1; d2 ← at2 b 2 2;
  a0 ← at2 b 0 2; a1 ← at2 b 1 1; a2 ← at2 b 2 0;
  Ok (rc ++ [[d0; d1; d2]; [a0; a1; a2]]).

(** [line[0] and line[0] == line[1] == line[2]] *)
Definition line_wins (line : row) : result bool :=
  c0 ← getitem line 0;
  if truthy c0 then
    c1 ← getitem line 1;
    if bool_decide (c0 = c1) then
      c2 ← getitem line 2; Ok (bool_decide (c1 = c2))
    else Ok false
  else Ok false.

Fixpoint scan_lines (lines : list row) : result cell :=
  match lines with
  | [] => Ok None
  | line :: rest =>
      w ← line_wins line;
      if w : bool then getitem line 0 else scan_lines rest
  end.

Definition check_win (b : board) : result cell :=
  lines ← build_lines b; scan_lines lines.

Definition check_draw (b : board) : result bool :=
  if existsb (existsb is_empty_cell) b then Ok false
  else w ← check_win b; Ok (bool_decide (w = None)).

(** ['O' if current_turn == 'X' else 'X']; the handler passes the
    [next_turn] column, an [Optional[str]]. *)
Definition next_turn (current_turn : cell) : string :=
  if bool_decide (current_turn = Some "X") then "O" else "X".

End core.

(** ** make_move on the heap

    [make_move] builds its result by copying row objects and then
    assigning into one of the copies.  To say what happens to the input
    board object, rows are modelled as objects in a heap and a board as
    the list of the addresses of its rows.  The outer list of the input
    is only read by [make_move]; the outer list of the result is new. *)

Module heap.

Definition addr := nat.
Definition heap := list core.row.
Definition board_ref := list addr.

(** The board value a reference denotes. *)
Definition read_board (h : heap) (b : board_ref) : core.board :=
  map (λ a : addr, h !!! a) b.

(** Every row address of the board is allocated. *)
Definition wf (h : heap) (b : board_ref) : Prop :=
  Forall (λ a : addr, (a < length h)%nat) b.

(** [[row[:] for row in board]]: one new row object per item, in order. *)
Definition copy_rows (h : heap) (b : board_ref) : heap * board_ref :=
  (h ++ read_board h b, seq (length h) (length b)).

Definition make_move (h : heap) (b : board_ref) (x y : Z) (symbol : string)
  : heap * result board_ref :=
  let '(h1, new_board) := copy_rows h b in
  match getitem new_board x with
  | Ok a =>
      match setitem (h1 !!! a) y (Some symbol) with
      | Ok r' => (<[a:=r']> h1, Ok new_board)
      | HTTPException c d => (h1, HTTPException c d)
      | Raise e => (h1, Raise e)
      end
  | HTTPException c d => (h1, HTTPException c d)
  | Raise e => (h1, Raise e)
  end.

End heap.

(** ** json.loads, on the fragment the board column uses

    Arrays, strings without escape sequences, and null. *)

Module json.

Inductive value := JNull | JStr (s : string) | JArr (items : list value).

Definition quote : ascii := "034"%char.
Definition backslash : ascii := "092"%char.

Definition is_ws (c : ascii) : bool :=
  bool_decide (c = " "%char) || bool_decide (c = "009"%char)
  || bool_decide (c = "010"%char) || bool_decide (c = "013"%char).

Fixpoint skip_ws (s : list ascii) : list ascii :=
  match s with
  | c :: s' => if is_ws c then skip_ws s' else s
  | [] => []
  end.

(** The rest of a string literal, after its opening quote. *)
Fixpoint str_body (s : list ascii) : option (string * list ascii) :=
  match s with
  | [] => None
  | c :: s' =>
      if bool_decide (c = quote) then Some (EmptyString, s')
      else if bool_decide (c = backslash) then None
      else match str_body s' with
           | Some (t, rest) => Some (String c t, rest)
           | None => None
           end
  end.

Fixpoint parse_value (fuel : nat) (s : list ascii) : option (value * list ascii) :=
  match fuel with
  | O => None
  | S fuel' =>
      match skip_ws s with
      | "n"%char :: "u"%char :: "l"%char :: "l"%char :: rest => Some (JNull, rest)
      | "["%char :: rest =>
          match skip_ws rest with
          | "]"%char :: rest' => Some (JArr [], rest')
          | _ => match parse_items fuel' rest with
                 | Some (items, rest') => Some (JArr items, rest')
                 | None => None
                 end
          end
      | c :: rest =>
          if bool_decide (c = quote) then
            match str_body rest with
            | Some (t, rest') => Some (JStr t, rest')
            | None => None
            end
          else None
      | [] => None
      end
  end
with parse_items (fuel : nat) (s : list ascii) : option (list value * list ascii) :=
  match fuel with
  | O => None
  | S fuel' =>
      match parse_value fuel' s with
      | Some (v, rest) =>
          match skip_ws rest with
          | ","%char :: rest' =>
              match parse_items fuel' rest' with
              | Some (vs, rest'') => Some (v :: vs, rest'')
              | None => None
              end
          | "]"%char :: rest' => Some ([v], rest')
          | _ => None
          end
      | None => None
      end
  end.

Definition loads (s : string) : option value :=
  let cs := list_ascii_of_string s in
  match parse_value (S (length cs)) cs with
  | Some (v, rest) => match skip_ws rest with [] => Some v | _ => None end
  | None => None
  end.

Definition cell_of_value (v : value) : option core.cell :=
  match v with
  | JNull => Some None
  | JStr s => Some (Some s)
  | JArr _ => None
  end.

Definition row_of_value (v : value) : option core.row :=
  match v with
  | JArr items => mapM cell_of_value items
  | _ => None
  end.

(** The decoded value as a [List[List[Optional[str]]]], when it is one. *)
Definition board_of_value (v : value) : option core.board :=
  match v with
  | JArr items => mapM row_of_value items
  | _ => None
  end.

End json.

(** ** database.py

    The tables as finite maps and lists.  Every statement is executed on
    its own connection, so each one takes effect when it runs.  [db_now]
    is the value [NOW()] returns; a statement that runs moves it on.
    [db_executed] records the writing statements in the order they ran.

    The driver is taken to accept every argument it is given.  asyncpg
    refuses the list [update_game_board] passes when the board column
    holds text, with a DataError before the statement runs; the theorems
    that say a move was written assume a game row whose board column
    holds a list. *)

Module database.

(** The value of the [board] column as the driver hands it over: the JSON
    text the INSERT wrote, or the list object [update_game_board] was
    given. *)
Inductive board_column :=
  | BoardText (s : string)
  | BoardList (b : core.board).

Record game_row := {
  g_id : Z;
  g_player_x_id : Z;
  g_player_o_id : option Z;
  g_next_turn : option string;
  g_board : board_column;
  g_winner : option string;
  g_created_at : Z;
  g_finished_at : option Z
}.

Record move_row := {
  m_id : Z;
  m_game_id : Z;
  m_player_id : Z;
  m_x : Z;
  m_y : Z;
  m_symbol : string;
  m_timestamp : Z
}.

Record player_row := { p_id : Z; p_username : string }.

Inductive stmt :=
  | InsertGame (id : Z)
  | UpdateGameBoard (game_id : Z)
  | UpdateGameFinish (game_id : Z)
  | InsertMove (game_id : Z).

Record db := {
  db_player : gmap Z string;
  db_game : gmap Z game_row;
  db_move : list move_row;
  db_game_seq : Z;
  db_move_seq : Z;
  db_now : Z;
  db_executed : list stmt
}.

Definition dq : string := String json.quote EmptyString.

(** The board literal of the INSERT in [create_game]: three rows of
    three empty JSON strings. *)
Definition new_board_text : string :=
  let e := (dq ++ dq)%string in
  let r := ("[" ++ e ++ ", " ++ e ++ ", " ++ e ++ "]")%string in
  ("[" ++ r ++ ", " ++ r ++ ", " ++ r ++ "]")%string.

Definition get_player (d : db) (player_id : Z) : option player_row :=
  match db_player d !! player_id with
  | Some u => Some {| p_id := player_id; p_username := u |}
  | None => None
  end.

Definition get_game (d : db) (game_id : Z) : option game_row :=
  db_game d !! game_id.

(** Columns the INSERT does not name ([winner], [finished_at]) are NULL. *)
Definition create_game (player_x_id : Z) (player_o_id : option Z) (d : db)
  : db * game_row :=
  let row := {| g_id := db_game_seq d;
                g_player_x_id := player_x_id;
                g_player_o_id := player_o_id;
                g_next_turn := Some "X";
                g_board := BoardText new_board_text;
                g_winner := None;
                g_created_at := db_now d;
                g_finished_at := None |} in
  ({| db_player := db_player d;
      db_game := <[db_game_seq d := row]> (db_game d);
      db_move := db_move d;
      db_game_seq := db_game_seq d + 1;
      db_move_seq := db_move_seq d;
      db_now := db_now d + 1;
      db_executed := db_executed d ++ [InsertGame (db_game_seq d)] |}, row).

(** [UPDATE game SET winner=$1, finished_at=NOW() WHERE id=$2] *)
Definition finish_game (game_id : Z) (winner : option string) (d : db) : db :=
  let upd (g : game_row) :=
    {| g_id := g_id g;
       g_player_x_id := g_player_x_id g;
       g_player_o_id := g_player_o_id g;
       g_next_turn := g_next_turn g;
       g_board := g_board g;
       g_winner := winner;
       g_created_at := g_created_at g;
       g_finished_at := Some (db_now d) |} in
  {| db_player := db_player d;
     db_game := alter upd game_id (db_game d);
     db_move := db_move d;
     db_game_seq := db_game_seq d;
     db_move_seq := db_move_seq d;
     db_now := db_now d + 1;
     db_executed := db_executed d ++ [UpdateGameFinish game_id] |}.

(** [UPDATE game SET board=$1, next_turn=$2, winner=$3 WHERE id=$4] *)
Definition update_game_board (game_id : Z) (board : core.board)
    (next_turn winner : option string) (d : db) : db :=
  let upd (g : game_row) :=
    {| g_id := g_id g;
       g_player_x_id := g_player_x_id g;
       g_player_o_id := g_player_o_id g;
       g_next_turn := next_turn;
       g_board := BoardList board;
       g_winner := winner;
       g_created_at := g_created_at g;
       g_finished_at := g_finished_at g |} in
  {| db_player := db_player d;
     db_game := alter upd game_id (db_game d);
     db_move := db_move d;
     db_game_seq := db_game_seq d;
     db_move_seq := db_move_seq d;
     db_now := db_now d + 1;
     db_executed := db_executed d ++ [UpdateGameBoard game_id] |}.

Definition add_move (game_id player_id x y : Z) (symbol : string) (d : db)
  : db * move_row :=
  let row := {| m_id := db_move_seq d;
                m_game_id := game_id;
                m_player_id := player_id;
                m_x := x;
                m_y := y;
                m_symbol := symbol;
                m_timestamp := db_now d |} in
  ({| db_player := db_player d;
      db_game := db_game d;
      db_move := db_move d ++ [row];
      db_game_seq := db_game_seq d;
      db_move_seq := db_move_seq d + 1;
      db_now := db_now d + 1;
      db_executed := db_executed d ++ [InsertMove game_id] |}, row).

End database.

(** ** main.py: the move handler *)

Module main.
Import database.

Record MoveCreate := { player_id : Z; x : Z; y : Z }.

Record PlayerOut := { po_id : Z; po_username : string }.

Record MoveOut := {
  mo_id : Z;
  mo_game_id : Z;
  mo_player : PlayerOut;
  mo_x : Z;
  mo_y : Z;
  mo_symbol : string;
  mo_timestamp : Z
}.

(** A text is decoded with [json.loads]; anything else is returned as it
    is.  The model covers texts that decode to the declared type, a list
    of lists of strings and None; another JSON value is reported here as
    a [TypeError]. *)
Definition _deserialize_board (bc : board_column) : result core.board :=
  match bc with
  | BoardText s =>
      match json.loads s with
      | Some v =>
          match json.board_of_value v with
          | Some b => Ok b
          | None => Raise TypeError
          end
      | None => Raise JSONDecodeError
      end
  | BoardList b => Ok b
  end.

(** What the handler has computed when it reaches its first write:
    [player_symbol], the new [board], [next_t], [winner_str], [finished]. *)
Record plan := {
  player_symbol : string;
  new_board : core.board;
  next_t : option string;
  winner_str : option string;
  finished : bool
}.

(** [api_submit_move] from the result [g] of [get_game] up to the first
    write: the checks, in the order of the code, then the new state. *)
Definition validate (g : option game_row) (move : MoveCreate) : result plan :=
  match g with
  | None => HTTPException 404 "Game not found"
  | Some g =>
      if negb (bool_decide (player_id move = g_player_x_id g)
               || bool_decide (Some (player_id move) = g_player_o_id g))
      then HTTPException 403 "Player not part of this game"
      else
        board ← _deserialize_board (g_board g);
        let player_symbol :=
          if bool_decide (player_id move = g_player_x_id g) then "X" else "O" in
        if core.truthy (g_winner g)
        then HTTPException 400 "Game already finished"
        else if negb (bool_decide (g_next_turn g = Some player_symbol))
        then HTTPException 403 "Not your turn"
        else
          valid ← core.is_valid_move board (x move) (y move);
          if negb valid
          then HTTPException 400 "Invalid move"
          else
            board ← core.make_move board (x move) (y move) player_symbol;
            winner ← core.check_win board;
            draw ← core.check_draw board;
            let finished := negb (bool_decide (winner = None)) || draw in
            let next_t :=
              if finished then None else Some (core.next_turn (g_next_turn g)) in
            let winner_str :=
              if core.truthy winner then winner
              else if draw then Some "Draw" else None in
            Ok {| player_symbol := player_symbol;
                  new_board := board;
                  next_t := next_t;
                  winner_str := winner_str;
                  finished := finished |}
  end.

(** [api_submit_move] from its first write to the end. *)
Definition persist (game_id : Z) (move : MoveCreate) (p : plan) (d : db)
  : db * result MoveOut :=
  let d := update_game_board game_id (new_board p) (next_t p) (winner_str p) d in
  let d :=
    if finished p && core.truthy (winner_str p)
    then finish_game game_id (winner_str p) d else d in
  let '(d, mov) := add_move game_id (player_id move) (x move) (y move)
                     (player_symbol p) d in
  match get_player d (player_id move) with
  | None => (d, Raise TypeError)
  | Some player_obj =>
      (d, Ok {| mo_id := m_id mov;
                mo_game_id := game_id;
                mo_player := {| po_id := p_id player_obj;
                                po_username := p_username player_obj |};
                mo_x := m_x mov;
                mo_y := m_y mov;
                mo_symbol := m_symbol mov;
                mo_timestamp := m_timestamp mov |})
  end.

(** The handler after [get_game] has returned [g]. *)
Definition resume (g : option game_row) (game_id : Z) (move : MoveCreate) (d : db)
  : db * result MoveOut :=
  match validate g move with
  | Ok p => persist game_id move p d
  | HTTPException c detail => (d, HTTPException c detail)
  | Raise e => (d, Raise e)
  end.

Definition api_submit_move (game_id : Z) (move : MoveCreate) (d : db)
  : db * result MoveOut :=
  resume (get_game d game_id) game_id move d.

(** Two requests for the same game whose handlers have both run
    [get_game] before either writes: both continue from the same row. *)
Definition submit_both (game_id : Z) (move1 move2 : MoveCreate) (d : db)
  : db * result MoveOut * result MoveOut :=
  let g := get_game d game_id in
  let '(d1, r1) := resume g game_id move1 d in
  let '(d2, r2) := resume g game_id move2 d1 in
  (d2, r1, r2).

(** The error kinds, as the handler raises them. *)
Definition NotFound : result MoveOut := HTTPException 404 "Game not found".
Definition NotAParticipant : result MoveOut :=
  HTTPException 403 "Player not part of this game".
Definition GameFinished : result MoveOut := HTTPException 400 "Game already finished".
Definition NotYourTurn : result MoveOut := HTTPException 403 "Not your turn".
Definition InvalidMove : result MoveOut := HTTPException 400 "Invalid move".

End main.


(** ** Boards, lines and sequences of moves *)

Module game.
Import core.

(** A 3×3 board: three rows of three cells. *)
Definition is_3x3 (b : board) : Prop :=
  length b = 3%nat ∧ Forall (λ r : row, length r = 3%nat) b.

(** The Empty cell of the board model: None, or the empty string of
    rows stored earlier. *)
Definition Empty (c : cell) : Prop := c = None ∨ c = Some EmptyString.

(** The test [check_win] applies to a line of three cells. *)
Definition line_won (c0 c1 c2 : cell) : bool :=
  truthy c0 && bool_decide (c0 = c1) && bool_decide (c1 = c2).

(** One of the eight lines [check_win] builds is filled with [symbol]. *)
Definition has_line (b : board) (symbol : string) : bool :=
  match build_lines b with
  | Ok lines =>
      existsb (λ l : row, bool_decide (l = [Some symbol; Some symbol; Some symbol])) lines
  | _ => false
  end.

(** Moves applied from [b] with alternating symbols, [symbol] first, each
    one only where [is_valid_move] holds. *)
Fixpoint play_alternating (b : board) (symbol : string) (ms : list (Z * Z))
  : option board :=
  match ms with
  | [] => Some b
  | (x, y) :: ms' =>
      match is_valid_move b x y with
      | Ok true =>
          match make_move b x y symbol with
          | Ok b' => play_alternating b' (next_turn (Some symbol)) ms'
          | _ => None
          end
      | _ => None
      end
  end.

(** The same, where a move is applied only while [check_win] finds no
    winner, as the handler does through the [winner] column. *)
Fixpoint play_until_won (b : board) (symbol : string) (ms : list (Z * Z))
  : option board :=
  match ms with
  | [] => Some b
  | (x, y) :: ms' =>
      match check_win b, is_valid_move b x y with
      | Ok None, Ok true =>
          match make_move b x y symbol with
          | Ok b' => play_until_won b' (next_turn (Some symbol)) ms'
          | _ => None
          end
      | _, _ => None
      end
  end.

End game.

(** ** Vocabulary of the move submission contract *)

Module contract.
Import database main.

(** [playerId ∈ {game.playerX, game.playerO}] *)
Definition participant (g : game_row) (move : MoveCreate) : Prop :=
  player_id move = g_player_x_id g ∨ Some (player_id move) = g_player_o_id g.

(** The participant's assigned symbol. *)
Definition assigned_symbol (g : game_row) (move : MoveCreate) : string :=
  if bool_decide (player_id move = g_player_x_id g) then "X" else "O".

(** The game's outcome is no longer InProgress: the [winner] column holds
    'X', 'O' or 'Draw'. *)
Definition concluded (g : game_row) : Prop := core.truthy (g_winner g) = true.

(** Statements of a run that update the game row, and that insert a move. *)
Definition is_game_update (s : stmt) : bool :=
  match s with
  | UpdateGameBoard _ | UpdateGameFinish _ => true
  | _ => false
  end.

Definition is_move_insert (s : stmt) : bool :=
  match s with
  | InsertMove _ => true
  | _ => false
  end.

Definition game_updates (l : list stmt) : nat := length (List.filter is_game_update l).

Definition move_inserts (l : list stmt) : nat := length (List.filter is_move_insert l).

(** The second UPDATE, [finish_game], runs. *)
Definition stamps (p : plan) : bool := finished p && core.truthy (winner_str p).

(** The game row after the writes of an accepted move that started when
    [NOW()] was [now]. *)
Definition row_after (p : plan) (now : Z) (g : game_row) : game_row :=
  {| g_id := g_id g;
     g_player_x_id := g_player_x_id g;
     g_player_o_id := g_player_o_id g;
     g_next_turn := next_t p;
     g_board := BoardList (new_board p);
     g_winner := winner_str p;
     g_created_at := g_created_at g;
     g_finished_at := if stamps p then Some (now + 1) else g_finished_at g |}.

(** The writing statements of an accepted move, in order. *)
Definition statements_of (game_id : Z) (p : plan) : list stmt :=
  UpdateGameBoard game_id
  :: (if stamps p then [UpdateGameFinish game_id] else []) ++ [InsertMove game_id].

End contract.

(** ** Concrete boards, requests and databases used below *)

Module examples.
Import core database main.

(** Three row objects; the first cell of the first row holds X. *)
Definition heap0 : heap.heap :=
  [[Some "X"; None; None]; [None; None; None]; [None; None; None]].
Definition board0 : heap.board_ref := [0%nat; 1%nat; 2%nat].

(** X fills the top row, O answers in the middle row, and play goes on
    after the fifth move. *)
Definition both_rows : list (Z * Z) :=
  [(0, 0); (1, 0); (0, 1); (1, 1); (0, 2); (1, 2)].

(** The same moves up to the one that completes the top row. *)
Definition x_wins : list (Z * Z) := [(0, 0); (1, 0); (0, 1); (1, 1); (0, 2)].

Definition players0 : gmap Z string := {[ 10 := "alice"; 20 := "bob" ]}.

Definition game_with (board : board_column) (next_turn winner : option string)
    (finished_at : option Z) : game_row :=
  {| g_id := 1;
     g_player_x_id := 10;
     g_player_o_id := Some 20;
     g_next_turn := next_turn;
     g_board := board;
     g_winner := winner;
     g_created_at := 0;
     g_finished_at := finished_at |}.

(** A database that holds the players 10 and 20 and game 1. *)
Definition db_with (g : game_row) : db :=
  {| db_player := players0;
     db_game := {[ 1 := g ]};
     db_move := [];
     db_game_seq := 2;
     db_move_seq := 1;
     db_now := 100;
     db_executed := [] |}.

Definition no_games : db :=
  {| db_player := players0;
     db_game := ∅;
     db_move := [];
     db_game_seq := 1;
     db_move_seq := 1;
     db_now := 100;
     db_executed := [] |}.

(** Game 1 as [create_game] leaves it. *)
Definition new_game : game_row :=
  game_with (BoardText new_board_text) (Some "X") None None.

(** Game 1 after X has won with the top row. *)
Definition won_game : game_row :=
  game_with (BoardList [[Some "X"; Some "X"; Some "X"];
                        [Some "O"; Some "O"; None];
                        [None; None; None]])
            None (Some "X") (Some 50).

(** Game 1 with X to move and two X in the top row. *)
Definition x_to_win : game_row :=
  game_with (BoardList [[Some "X"; Some "X"; None];
                        [Some "O"; Some "O"; None];
                        [None; None; None]])
            (Some "X") None None.

Definition move_of (player_id x y : Z) : MoveCreate :=
  {| player_id := player_id; x := x; y := y |}.

(** What the handler computes when player 10 completes the top row of
    [x_to_win]. *)
Definition winning_plan : plan :=
  {| player_symbol := "X";
     new_board := [[Some "X"; Some "X"; Some "X"];
                   [Some "O"; Some "O"; None];
                   [None; None; None]];
     next_t := None;
     winner_str := Some "X";
     finished := true |}.

(** Game 1 as [create_game] leaves it when no second player is named. *)
Definition open_game : game_row :=
  {| g_id := 1;
     g_player_x_id := 10;
     g_player_o_id := None;
     g_next_turn := Some "X";
     g_board := BoardText new_board_text;
     g_winner := None;
     g_created_at := 0;
     g_finished_at := None |}.

(** Game 1 when player 10 holds both seats and has made the first move. *)
Definition solo_game : game_row :=
  {| g_id := 1;
     g_player_x_id := 10;
     g_player_o_id := Some 10;
     g_next_turn := Some "O";
     g_board := BoardList [[Some "X"; None; None]; [None; None; None];
                           [None; None; None]];
     g_winner := None;
     g_created_at := 0;
     g_finished_at := None |}.

(** Game 1 with X to move on a board stored as a list of None cells. *)
Definition blank_game : game_row :=
  game_with (BoardList core.empty_board) (Some "X") None None.

(** What the handler computes for X at (0, 0) in [blank_game], then for
    O at (1, 1), and for X at (1, 1) in [blank_game]. *)
Definition blank_opening_plan : plan :=
  {| player_symbol := "X";
     new_board := [[Some "X"; None; None]; [None; None; None]; [None; None; None]];
     next_t := Some "O";
     winner_str := None;
     finished := false |}.

Definition blank_reply_plan : plan :=
  {| player_symbol := "O";
     new_board := [[Some "X"; None; None]; [None; Some "O"; None]; [None; None; None]];
     next_t := Some "X";
     winner_str := None;
     finished := false |}.

Definition blank_centre_plan : plan :=
  {| player_symbol := "X";
     new_board := [[None; None; None]; [None; Some "X"; None]; [None; None; None]];
     next_t := Some "O";
     winner_str := None;
     finished := false |}.

(** What the handler computes for X at (2, 2) in [x_to_win]. *)
Definition x_corner_plan : plan :=
  {| player_symbol := "X";
     new_board := [[Some "X"; Some "X"; None]; [Some "O"; Some "O"; None];
                   [None; None; Some "X"]];
     next_t := Some "O";
     winner_str := None;
     finished := false |}.

(** The board of the INSERT as [json.loads] returns it. *)
Definition all_empty_strings : core.board :=
  replicate 3 (replicate 3 (Some EmptyString)).

End examples.

(** ** Counting the cells of a board *)

Module tally.
Import core.

(** Cells of the board that hold [symbol]. *)
Definition count_symbol (b : board) (symbol : string) : nat :=
  sum_list (map (λ c : cell, if bool_decide (c = Some symbol) then 1%nat else 0%nat)
              (concat b)).

(** Cells of the board that are not Empty. *)
Definition count_played (b : board) : nat :=
  sum_list (map (λ c : cell, if is_empty_cell c then 0%nat else 1%nat) (concat b)).

(** The cell at position [(x, y)], when the board has one there. *)
Definition cell_at (b : board) (x y : Z) : option cell :=
  r ← b !! Z.to_nat x; r !! Z.to_nat y.

End tally.

(** ** Requests handled one after the other, and the move history *)

Module session.
Import core database main.

(** A sequence of move requests, each for a game id, handled in order:
    the database at the end and the responses. *)
Fixpoint run (d : db) (reqs : list (Z * MoveCreate)) : db * list (result MoveOut) :=
  match reqs with
  | [] => (d, [])
  | (game_id, move) :: rest =>
      let '(d1, r) := api_submit_move game_id move d in
      let '(d2, rs) := run d1 rest in
      (d2, r :: rs)
  end.

(** The move rows of a game, in the order they were inserted. *)
Definition moves_of (game_id : Z) (d : db) : list move_row :=
  List.filter (λ m, bool_decide (m_game_id m = game_id)) (db_move d).

(** The recorded moves applied with [make_move], one after the other. *)
Fixpoint replay (b : board) (rows : list move_row) : result board :=
  match rows with
  | [] => Ok b
  | m :: rest => b' ← make_move b (m_x m) (m_y m) (m_symbol m); replay b' rest
  end.

End session.

(** ** database.py: players and the second seat

    [create_player] takes its id from the sequence of the player table,
    which the record [db] does not hold; [store] adds it.  [db_executed]
    goes on recording the statements of [create_game] and of the move
    handler only. *)

Module lobby.
Import core database.

Record store := {
  st_db : db;
  st_player_seq : Z
}.

(** [SELECT id, username FROM player WHERE username = $1], first row.
    When several rows hold the name the model returns the first of the
    table's listing. *)
Definition get_player_by_username (d : db) (username : string) : option player_row :=
  match List.find (λ kv : Z * string, bool_decide (kv.2 = username))
          (map_to_list (db_player d)) with
  | Some (id, u) => Some {| p_id := id; p_username := u |}
  | None => None
  end.

(** [INSERT INTO player (username) VALUES ($1) RETURNING id, username] *)
Definition create_player (username : string) (s : store) : store * player_row :=
  let d := st_db s in
  let id := st_player_seq s in
  ({| st_db := {| db_player := <[id := username]> (db_player d);
                  db_game := db_game d;
                  db_move := db_move d;
                  db_game_seq := db_game_seq d;
                  db_move_seq := db_move_seq d;
                  db_now := db_now d + 1;
                  db_executed := db_executed d |};
      st_player_seq := id + 1 |},
   {| p_id := id; p_username := username |}).

(** [UPDATE game SET player_o_id = $1 WHERE id = $2 AND player_o_id IS
    NULL RETURNING *]: the row after the update, or None when no row
    matched. *)
Definition join_game (game_id player_o_id : Z) (d : db) : db * option game_row :=
  let ran (games : gmap Z game_row) :=
    {| db_player := db_player d;
       db_game := games;
       db_move := db_move d;
       db_game_seq := db_game_seq d;
       db_move_seq := db_move_seq d;
       db_now := db_now d + 1;
       db_executed := db_executed d |} in
  match db_game d !! game_id with
  | Some g =>
      match g_player_o_id g with
      | None =>
          let g' := {| g_id := g_id g;
                       g_player_x_id := g_player_x_id g;
                       g_player_o_id := Some player_o_id;
                       g_next_turn := g_next_turn g;
                       g_board := g_board g;
                       g_winner := g_winner g;
                       g_created_at := g_created_at g;
                       g_finished_at := g_finished_at g |} in
          (ran (<[game_id := g']> (db_game d)), Some g')
      | Some _ => (ran (db_game d), None)
      end
  | None => (ran (db_game d), None)
  end.

End lobby.

(** ** models.py and the game handlers of main.py *)

Module api.
Import core database main lobby.

(** What a handler that builds a [GameOut] ends with: the response, an
    HTTPException, another exception, or the ValidationError pydantic
    raises when a value is not of the declared field type. *)
Inductive reply (A : Type) :=
  | Sent (a : A)
  | Refused (status_code : Z) (detail : string)
  | Failed (e : pyexc)
  | ValidationError.
Arguments Sent {A} a.
Arguments Refused {A} status_code detail.
Arguments Failed {A} e.
Arguments ValidationError {A}.

Record GameOut := {
  go_id : Z;
  go_player_x : PlayerOut;
  go_player_o : option PlayerOut;
  go_board : board;
  go_next_turn : option string;
  go_winner : option string;
  go_created_at : Z;
  go_finished_at : option Z
}.

(** [Optional[Literal['X', 'O']]] *)
Definition is_symbol_or_none (c : option string) : bool :=
  match c with
  | None => true
  | Some s => bool_decide (s = "X") || bool_decide (s = "O")
  end.

(** [Optional[Literal['X', 'O', 'Draw']]] *)
Definition is_winner_or_none (c : option string) : bool :=
  match c with
  | None => true
  | Some s => bool_decide (s = "X") || bool_decide (s = "O") || bool_decide (s = "Draw")
  end.

(** The fields of [GameOut] whose declared type restricts the values the
    handlers pass: [board], [next_turn] and [winner]. *)
Definition valid_game_out (board : board) (next_turn winner : option string) : bool :=
  forallb (forallb is_symbol_or_none) board
  && is_symbol_or_none next_turn && is_winner_or_none winner.

(** [models.PlayerOut] unpacked from [info]: a TypeError when [info] is
    None. *)
Definition player_out (info : option player_row) : reply PlayerOut :=
  match info with
  | Some r => Sent {| po_id := p_id r; po_username := p_username r |}
  | None => Failed TypeError
  end.

(** [models.GameOut(id=g["id"], player_x=..., player_o=..., board=
    _deserialize_board(g["board"]), ...)], the arguments evaluated in
    this order, then validated. *)
Definition game_out (g : game_row) (player_x : reply PlayerOut)
    (player_o : reply (option PlayerOut)) : reply GameOut :=
  match player_x with
  | Sent px =>
      match player_o with
      | Sent po =>
          match _deserialize_board (g_board g) with
          | Ok b =>
              if valid_game_out b (g_next_turn g) (g_winner g)
              then Sent {| go_id := g_id g;
                           go_player_x := px;
                           go_player_o := po;
                           go_board := b;
                           go_next_turn := g_next_turn g;
                           go_winner := g_winner g;
                           go_created_at := g_created_at g;
                           go_finished_at := g_finished_at g |}
              else ValidationError
          | HTTPException c detail => Refused c detail
          | Raise e => Failed e
          end
      | Refused c detail => Refused c detail
      | Failed e => Failed e
      | ValidationError => ValidationError
      end
  | Refused c detail => Refused c detail
  | Failed e => Failed e
  | ValidationError => ValidationError
  end.

(** [models.PlayerOut] unpacked from [oinfo] [if oinfo else None], where
    [oinfo] is
    [get_player(g["player_o_id"]) if g["player_o_id"] else None]: an id
    that is None or 0 is not looked up. *)
Definition optional_player_out (d : db) (player_o_id : option Z)
  : reply (option PlayerOut) :=
  match player_o_id with
  | Some pid =>
      if bool_decide (pid = 0) then Sent None
      else match get_player d pid with
           | Some r => Sent (Some {| po_id := p_id r; po_username := p_username r |})
           | None => Sent None
           end
  | None => Sent None
  end.

(** [if pid and not await database.get_player(pid)] *)
Definition player_missing (d : db) (pid : option Z) : bool :=
  match pid with
  | Some id =>
      negb (bool_decide (id = 0))
      && match get_player d id with Some _ => false | None => true end
  | None => false
  end.

Definition not_found (pid : Z) : string :=
  ("Player " +:+ pretty pid +:+ " not found")%string.

Definition api_create_player (username : string) (s : store) : store * result PlayerOut :=
  match get_player_by_username (st_db s) username with
  | Some _ => (s, HTTPException 409 "Username already taken")
  | None =>
      let '(s', rec) := create_player username s in
      (s', Ok {| po_id := p_id rec; po_username := p_username rec |})
  end.

Definition api_create_game (player_x_id : Z) (player_o_id : option Z) (d : db)
  : db * reply GameOut :=
  if player_missing d (Some player_x_id)
  then (d, Refused 404 (not_found player_x_id))
  else if player_missing d player_o_id
  then (d, Refused 404 (not_found (default 0 player_o_id)))
  else
    let '(d', g) := create_game player_x_id player_o_id d in
    (d', game_out g (player_out (get_player d' (g_player_x_id g)))
                    (optional_player_out d' (g_player_o_id g))).

Definition api_join_game (game_id : Z) (username : string) (s : store)
  : store * reply GameOut :=
  let '(s1, player) :=
    match get_player_by_username (st_db s) username with
    | Some player => (s, player)
    | None => create_player username s
    end in
  let '(d2, g) := join_game game_id (p_id player) (st_db s1) in
  let s2 := {| st_db := d2; st_player_seq := st_player_seq s1 |} in
  match g with
  | None => (s2, Refused 400 "Game already has two players or does not exist")
  | Some g =>
      (s2, game_out g (player_out (get_player d2 (g_player_x_id g)))
                      (match player_out
                               (match g_player_o_id g with
                                | Some pid => get_player d2 pid
                                | None => None
                                end) with
                       | Sent po => Sent (Some po)
                       | Refused c detail => Refused c detail
                       | Failed e => Failed e
                       | ValidationError => ValidationError
                       end))
  end.

Definition api_get_game (game_id : Z) (d : db) : reply GameOut :=
  match get_game d game_id with
  | None => Refused 404 "Game not found"
  | Some g =>
      game_out g (player_out (get_player d (g_player_x_id g)))
                 (optional_player_out d (g_player_o_id g))
  end.

End api.

(** ** Invariants of the player table *)

Module registry.
Import database lobby.

(** No two players have the same user name. *)
Definition unique_usernames (d : db) : Prop :=
  ∀ (i j : Z) (u : string),
    db_player d !! i = Some u → db_player d !! j = Some u → i = j.

(** The sequence is ahead of every id in the player table. *)
Definition seq_ahead (s : store) : Prop :=
  ∀ i : Z, is_Some (db_player (st_db s) !! i) → i < st_player_seq s.

End registry.

(** ** A concrete store *)

Module samples.
Import database lobby.

(** The players 10 and 20, game 1, and the player sequence at 21. *)
Definition store_with (g : game_row) : store :=
  {| st_db := examples.db_with g; st_player_seq := 21 |}.

End samples.

(** ** Boards that started as the board text of [create_game] *)

Module legacy.
Import core game database.

(** A cell of such a board: the empty string, or a symbol. *)
Definition legacy_cell (c : cell) : Prop :=
  c = Some EmptyString ∨ c = Some "X" ∨ c = Some "O".

Definition legacy_board (b : board) : Prop :=
  is_3x3 b ∧ Forall (Forall legacy_cell) b.

(** Game 1 after nine moves that fill the board without a line. *)
Definition drawn_game : game_row :=
  examples.game_with
    (BoardList [[Some "X"; Some "O"; Some "X"]; [Some "X"; Some "O"; Some "O"];
                [Some "O"; Some "X"; Some "X"]])
    None (Some "Draw") (Some 60).

End legacy.

(** ** Two handlers whose statements interleave

    Every database call of the handler is awaited, so between two of its
    statements another handler may run.  [pending] is where a handler
    that has validated its request stands; [step] runs its next
    statement. *)

Module race.
Import core database main.

Inductive pending :=
  | AtUpdate (p : plan)
  | AtFinish (p : plan)
  | AtInsert (p : plan)
  | AtRespond (mov : move_row)
  | Returned (r : result MoveOut).

Definition step (game_id : Z) (move : MoveCreate) (h : pending) (d : db)
  : db * pending :=
  match h with
  | AtUpdate p =>
      (update_game_board game_id (new_board p) (next_t p) (winner_str p) d,
       if finished p && truthy (winner_str p) then AtFinish p else AtInsert p)
  | AtFinish p => (finish_game game_id (winner_str p) d, AtInsert p)
  | AtInsert p =>
      let '(d', mov) := add_move game_id (player_id move) (x move) (y move)
                          (player_symbol p) d in
      (d', AtRespond mov)
  | AtRespond mov =>
      (d, Returned
            match get_player d (player_id move) with
            | None => Raise TypeError
            | Some player_obj =>
                Ok {| mo_id := m_id mov;
                      mo_game_id := game_id;
                      mo_player := {| po_id := p_id player_obj;
                                      po_username := p_username player_obj |};
                      mo_x := m_x mov;
                      mo_y := m_y mov;
                      mo_symbol := m_symbol mov;
                      mo_timestamp := m_timestamp mov |}
            end)
  | Returned r => (d, Returned r)
  end.

(** The statements of two handlers for the same game in the order the
    schedule gives: [true] lets the first handler run its next
    statement, [false] the second. *)
Fixpoint interleave (schedule : list bool) (game_id : Z) (move1 move2 : MoveCreate)
    (h1 h2 : pending) (d : db) : db * pending * pending :=
  match schedule with
  | [] => (d, h1, h2)
  | true :: rest =>
      let '(d', h1') := step game_id move1 h1 d in
      interleave rest game_id move1 move2 h1' h2 d'
  | false :: rest =>
      let '(d', h2') := step game_id move2 h2 d in
      interleave rest game_id move1 move2 h1 h2' d'
  end.

(** The handler has run [update_game_board]. *)
Definition updated (h : pending) : bool :=
  match h with
  | AtUpdate _ => false
  | _ => true
  end.

(** The move rows a handler has inserted, for a handler that started
    from plan [p] and whose player exists. *)
Definition tracks (move : MoveCreate) (p : plan) (h : pending)
    (rows : list move_row) : Prop :=
  match h with
  | AtUpdate q | AtFinish q | AtInsert q => q = p ∧ rows = []
  | AtRespond mov =>
      rows = [mov] ∧ m_x mov = x move ∧ m_y mov = y move ∧
      m_symbol mov = player_symbol p
  | Returned r =>
      ∃ out mov, r = Ok out ∧ rows = [mov] ∧
                 m_x mov = x move ∧ m_y mov = y move ∧
                 m_symbol mov = player_symbol p ∧
                 mo_x out = x move ∧ mo_y out = y move
  end.

(** What holds of the database at every point of an interleaving that
    started from [d0] with the plans [p1] and [p2]. *)
Definition consistent (game_id : Z) (move1 move2 : MoveCreate) (p1 p2 : plan)
    (d0 dc : db) (h1 h2 : pending) : Prop :=
  db_player dc = db_player d0 ∧
  (∃ g, get_game dc game_id = Some g ∧
        (updated h1 || updated h2 = true →
         g_board g = BoardList (new_board p1) ∨ g_board g = BoardList (new_board p2))) ∧
  ∃ rows1 rows2,
    tracks move1 p1 h1 rows1 ∧ tracks move2 p2 h2 rows2 ∧
    (db_move dc = db_move d0 ++ rows1 ++ rows2 ∨
     db_move dc = db_move d0 ++ rows2 ++ rows1).

End race.

(** * Properties *)

Ltac range3 x :=
  match goal with
  | H : 0 ≤ x < 3 |- _ =>
      let E := fresh in
      assert (E : x = 0 ∨ x = 1 ∨ x = 2) by lia;
      clear H; destruct E as [-> | [-> | ->]]
  end.

(** Finds a line in a list of lines. *)
Ltac find_line :=
  repeat first [ apply list_elem_of_here | apply list_elem_of_further ].

(** ** The board model *)

Section board_facts.
Import core game.

Lemma is_3x3_inv (b : board) :
  is_3x3 b →
  ∃ a0 a1 a2 b0 b1 b2 c0 c1 c2 : cell,
    b = [[a0; a1; a2]; [b0; b1; b2]; [c0; c1; c2]].
Proof.
  intros [Hl Hr].
  destruct b as [|r0 [|r1 [|r2 [|]]]]; try discriminate.
  apply Forall_cons in Hr as [H0 Hr].
  apply Forall_cons in Hr as [H1 Hr].
  apply Forall_cons in Hr as [H2 _].
  destruct r0 as [|? [|? [|? [|]]]]; try discriminate.
  destruct r1 as [|? [|? [|? [|]]]]; try discriminate.
  destruct r2 as [|? [|? [|? [|]]]]; try discriminate.
  by repeat eexists.
Qed.

Lemma is_3x3_cells (a0 a1 a2 b0 b1 b2 c0 c1 c2 : cell) :
  is_3x3 [[a0; a1; a2]; [b0; b1; b2]; [c0; c1; c2]].
Proof. split; [done | by repeat constructor]. Qed.

Lemma in_range_iff (x y : Z) :
  (0 <=? x) && (x <? 3) && (0 <=? y) && (y <? 3) = true ↔ 0 ≤ x < 3 ∧ 0 ≤ y < 3.
Proof. rewrite !andb_true_iff, !Z.leb_le, !Z.ltb_lt. lia. Qed.

Lemma is_empty_cell_true (c : cell) : is_empty_cell c = true ↔ Empty c.
Proof.
  unfold Empty. destruct c as [s|]; simpl.
  - rewrite bool_decide_eq_true. split; [intros ->; by right | intros [?|?]; congruence].
  - split; [by left | done].
Qed.

Lemma is_empty_cell_false (c : cell) : is_empty_cell c = false ↔ ¬ Empty c.
Proof. rewrite <- is_empty_cell_true. destruct (is_empty_cell c); split; congruence. Qed.

(** C6: on a 3×3 board [is_valid_move] returns a boolean for all integers
    [x] and [y], never raising, and the boolean is true exactly when both
    coordinates are in 0..2 and the cell at [(x, y)] is Empty. *)
Theorem is_valid_move_total_iff (b : board) (x y : Z) :
  is_3x3 b →
  ∃ v : bool,
    is_valid_move b x y = Ok v ∧
    (v = true ↔ 0 ≤ x < 3 ∧ 0 ≤ y < 3 ∧ ∃ c, at2 b x y = Ok c ∧ Empty c).
Proof.
  intros H3. destruct (is_3x3_inv b H3) as (a0&a1&a2&b0&b1&b2&c0&c1&c2&->).
  unfold is_valid_move.
  destruct ((0 <=? x) && (x <? 3) && (0 <=? y) && (y <? 3)) eqn:E.
  - apply in_range_iff in E as [Hx Hy].
    assert (∃ c, at2 [[a0; a1; a2]; [b0; b1; b2]; [c0; c1; c2]] x y = Ok c) as [c Hc].
    { range3 x; range3 y; by eexists. }
    rewrite Hc. exists (is_empty_cell c). split; [done|].
    rewrite is_empty_cell_true. split.
    + intros He. repeat split; try lia. by exists c.
    + intros (_ & _ & c' & Hc' & He). congruence.
  - exists false. split; [done|]. split; [discriminate|].
    intros (Hx & Hy & _).
    assert ((0 <=? x) && (x <? 3) && (0 <=? y) && (y <? 3) = true) by by apply in_range_iff.
    congruence.
Qed.

Lemma is_valid_move_total_iff_witness :
  ∃ v : bool,
    is_valid_move empty_board 5 (-1) = Ok v ∧
    (v = true ↔
     0 ≤ 5 < 3 ∧ 0 ≤ -1 < 3 ∧ ∃ c, at2 empty_board 5 (-1) = Ok c ∧ Empty c).
Proof.
  apply (is_valid_move_total_iff empty_board 5 (-1)).
  split; [reflexivity | repeat constructor].
Defined.

Lemma build_lines_3x3 (a0 a1 a2 b0 b1 b2 c0 c1 c2 : cell) :
  build_lines [[a0; a1; a2]; [b0; b1; b2]; [c0; c1; c2]] =
  Ok [[a0; a1; a2]; [a0; b0; c0]; [b0; b1; b2]; [a1; b1; c1];
      [c0; c1; c2]; [a2; b2; c2]; [a0; b1; c2]; [a2; b1; c0]].
Proof. reflexivity. Qed.

Lemma line_wins_3 (c0 c1 c2 : cell) :
  line_wins [c0; c1; c2] = Ok (line_won c0 c1 c2).
Proof.
  unfold line_wins, line_won.
  change (getitem [c0; c1; c2] 0) with (Ok c0).
  change (getitem [c0; c1; c2] 1) with (Ok c1).
  change (getitem [c0; c1; c2] 2) with (Ok c2).
  simpl. destruct (truthy c0); [|done].
  simpl. by destruct (bool_decide (c0 = c1)).
Qed.

Lemma scan_lines_cons3 (c0 c1 c2 : cell) (rest : list row) :
  scan_lines ([c0; c1; c2] :: rest) =
  if line_won c0 c1 c2 then Ok c0 else scan_lines rest.
Proof.
  cbn [scan_lines]. rewrite line_wins_3. simpl.
  by destruct (line_won c0 c1 c2).
Qed.

Lemma line_won_true (c0 c1 c2 : cell) :
  line_won c0 c1 c2 = true ↔
  ∃ s, s ≠ EmptyString ∧ c0 = Some s ∧ c1 = Some s ∧ c2 = Some s.
Proof.
  unfold line_won. rewrite !andb_true_iff, !bool_decide_eq_true. split.
  - intros [[Ht <-] <-]. destruct c0 as [s|]; [|done].
    exists s. simpl in Ht. apply negb_true_iff, bool_decide_eq_false in Ht. done.
  - intros (s & Hs & -> & -> & ->). repeat split.
    simpl. by apply negb_true_iff, bool_decide_eq_false.
Qed.

(** What [scan_lines] returns on lines of three cells: the first cell of
    the first line that is won, or None when no line is. *)
Lemma scan_lines_3 (lines : list row) :
  Forall (λ l : row, length l = 3%nat) lines →
  (∃ s, s ≠ EmptyString ∧ scan_lines lines = Ok (Some s) ∧
        [Some s; Some s; Some s] ∈ lines) ∨
  (scan_lines lines = Ok None ∧
   ∀ s, s ≠ EmptyString → [Some s; Some s; Some s] ∉ lines).
Proof.
  induction 1 as [|l lines Hl _ IH].
  - right. split; [done|]. intros s _. apply not_elem_of_nil.
  - destruct l as [|c0 [|c1 [|c2 [|]]]]; try discriminate.
    rewrite scan_lines_cons3. destruct (line_won c0 c1 c2) eqn:E.
    + apply line_won_true in E as (s & Hs & -> & -> & ->).
      left. exists s. split; [done|]. split; [done|]. apply list_elem_of_here.
    + destruct IH as [(s & Hs & Hw & Hin) | [Hw Hno]].
      * left. exists s. split; [done|]. split; [done|]. by apply list_elem_of_further.
      * right. split; [done|]. intros s Hs [Heq | Hin]%elem_of_cons.
        -- injection Heq as <- <- <-.
           assert (line_won (Some s) (Some s) (Some s) = true); [|congruence].
           apply line_won_true. by exists s.
        -- by apply (Hno s).
Qed.

Lemma has_line_true (b : board) (s : string) :
  has_line b s = true ↔
  ∃ lines, build_lines b = Ok lines ∧ [Some s; Some s; Some s] ∈ lines.
Proof.
  unfold has_line. split.
  - destruct (build_lines b) as [lines| |]; try discriminate.
    intros (l & Hl & Heq)%existsb_exists.
    apply bool_decide_eq_true in Heq as ->.
    exists lines. split; [done|]. by apply list_elem_of_In.
  - intros (lines & -> & Hin). apply existsb_exists.
    exists [Some s; Some s; Some s]. split; [by apply list_elem_of_In|].
    by apply bool_decide_eq_true.
Qed.

Lemma check_win_lines (b : board) (lines : list row) :
  build_lines b = Ok lines → check_win b = scan_lines lines.
Proof. unfold check_win. by intros ->. Qed.

(** On a 3×3 board [check_win] returns: a non-empty symbol that fills one
    of the lines, or None when no non-empty symbol fills a line. *)
Lemma check_win_3x3 (b : board) :
  is_3x3 b →
  (∃ s, s ≠ EmptyString ∧ check_win b = Ok (Some s) ∧ has_line b s = true) ∨
  (check_win b = Ok None ∧ ∀ s, s ≠ EmptyString → has_line b s = false).
Proof.
  intros H3. destruct (is_3x3_inv b H3) as (a0&a1&a2&b0&b1&b2&c0&c1&c2&->).
  rewrite (check_win_lines _ _ (build_lines_3x3 a0 a1 a2 b0 b1 b2 c0 c1 c2)).
  match goal with |- context [scan_lines ?L] =>
    destruct (scan_lines_3 L) as [(s & Hs & Hw & Hin) | [Hw Hno]];
      [by repeat constructor | |]
  end.
  - left. exists s. split; [done|]. split; [done|].
    apply has_line_true. rewrite build_lines_3x3. eauto.
  - right. split; [done|]. intros s Hs.
    apply not_true_iff_false. intros (lines & Hl & Hin)%has_line_true.
    rewrite build_lines_3x3 in Hl. injection Hl as <-. by apply (Hno s).
Qed.

Lemma check_win_total (b : board) : is_3x3 b → ∃ w, check_win b = Ok w.
Proof. intros H3. destruct (check_win_3x3 b H3) as [(s&_&?&_) | [? _]]; eauto. Qed.

(** C7: on a 3×3 board [check_draw] returns a boolean, and it is true
    exactly when none of the nine cells is Empty and [check_win] returns
    None. *)
Theorem check_draw_iff (b : board) :
  is_3x3 b →
  ∃ v : bool,
    check_draw b = Ok v ∧
    (v = true ↔
     (∀ i j, 0 ≤ i < 3 → 0 ≤ j < 3 → ∃ c, at2 b i j = Ok c ∧ ¬ Empty c) ∧
     check_win b = Ok None).
Proof.
  intros H3. destruct (check_win_total b H3) as [w Hw].
  destruct (is_3x3_inv b H3) as (a0&a1&a2&b0&b1&b2&c0&c1&c2&->).
  unfold check_draw. rewrite Hw.
  destruct (existsb _ _) eqn:E.
  - exists false. split; [done|]. split; [discriminate|].
    intros [Hfull _]. exfalso.
    assert (∀ i j c, 0 ≤ i < 3 → 0 ≤ j < 3 →
      at2 [[a0; a1; a2]; [b0; b1; b2]; [c0; c1; c2]] i j = Ok c →
      is_empty_cell c = false) as Hc.
    { intros i j c Hi Hj Hc. destruct (Hfull i j Hi Hj) as (c' & Hc' & Hne).
      apply is_empty_cell_false. congruence. }
    simpl in E.
    rewrite (Hc 0 0 a0), (Hc 0 1 a1), (Hc 0 2 a2), (Hc 1 0 b0), (Hc 1 1 b1),
      (Hc 1 2 b2), (Hc 2 0 c0), (Hc 2 1 c1), (Hc 2 2 c2) in E by (lia || reflexivity).
    discriminate.
  - exists (bool_decide (w = None)). split; [done|].
    rewrite bool_decide_eq_true. split.
    + intros ->. split; [|done]. intros i j Hi Hj.
      simpl in E. repeat (apply orb_false_elim in E as [E ?]).
      repeat match goal with
             | H : _ || _ = false |- _ => apply orb_false_elim in H as [H ?]
             end.
      range3 i; range3 j; eexists; (split; [reflexivity|]);
        by apply is_empty_cell_false.
    + intros [_ Hn]. congruence.
Qed.

Lemma check_draw_iff_witness :
  ∃ v : bool,
    check_draw empty_board = Ok v ∧
    (v = true ↔
     (∀ i j, 0 ≤ i < 3 → 0 ≤ j < 3 → ∃ c, at2 empty_board i j = Ok c ∧ ¬ Empty c) ∧
     check_win empty_board = Ok None).
Proof.
  apply (check_draw_iff empty_board).
  split; [reflexivity | repeat constructor].
Defined.

End board_facts.

(** ** make_move: the value it returns and the objects it touches *)

Section make_move_facts.
Import core game.

Lemma py_index_lt (len : nat) (i : Z) (k : nat) :
  py_index len i = Some k → (k < len)%nat.
Proof.
  unfold py_index. repeat case_bool_decide; intros; simplify_eq; lia.
Qed.

(** On a 3×3 board with both coordinates in range [make_move] returns a
    3×3 board that holds the symbol at [(x, y)] and agrees with the input
    everywhere else. *)
Lemma make_move_3x3 (b : board) (x y : Z) (s : string) :
  is_3x3 b → 0 ≤ x < 3 → 0 ≤ y < 3 →
  ∃ b', make_move b x y s = Ok b' ∧ is_3x3 b' ∧
        at2 b' x y = Ok (Some s) ∧
        ∀ i j, 0 ≤ i < 3 → 0 ≤ j < 3 → (i, j) ≠ (x, y) → at2 b' i j = at2 b i j.
Proof.
  intros H3 Hx Hy. destruct (is_3x3_inv b H3) as (a0&a1&a2&b0&b1&b2&c0&c1&c2&->).
  range3 x; range3 y;
    (eexists; split; [reflexivity|]; split; [apply is_3x3_cells|];
     split; [reflexivity|];
     intros i j Hi Hj Hne; range3 i; range3 j; try reflexivity; congruence).
Qed.

Lemma read_board_fresh (h : heap.heap) (rows : list row) :
  heap.read_board (h ++ rows) (seq (length h) (length rows)) = rows.
Proof.
  revert h. induction rows as [|r rows IH]; intros h; [done|].
  unfold heap.read_board in *. simpl. f_equal.
  - by apply list_lookup_total_correct, list_lookup_middle.
  - specialize (IH (h ++ [r])).
    replace ((h ++ [r]) ++ rows) with (h ++ r :: rows) in IH by (by rewrite <- app_assoc).
    rewrite length_app in IH. simpl in IH.
    by replace (length h + 1)%nat with (S (length h)) in IH by lia.
Qed.

Lemma read_board_old (h h' : heap.heap) (b : heap.board_ref) :
  heap.wf h b → (∀ a : nat, (a < length h)%nat → h' !! a = h !! a) →
  heap.read_board h' b = heap.read_board h b.
Proof.
  intros Hwf Hold. unfold heap.read_board, heap.wf, heap.heap, heap.addr in *.
  induction Hwf as [|a b Ha _ IH]; simpl; [done|]. f_equal; [|done].
  by rewrite !list_lookup_total_alt, (Hold a Ha).
Qed.

(** [make_move] spelled out on positions. *)
Lemma make_move_eq (b : board) (x y : Z) (s : string) :
  make_move b x y s =
  match py_index (length b) x with
  | Some k =>
      match b !! k with
      | Some r =>
          match py_index (length r) y with
          | Some m => Ok (<[k:=<[m:=Some s]> r]> b)
          | None => Raise IndexError
          end
      | None => Raise IndexError
      end
  | None => Raise IndexError
  end.
Proof.
  unfold make_move, getitem, setitem, board, row, cell in *.
  destruct (py_index (length b) x) as [k|]; [|done].
  destruct (b !! k) as [r|]; [|done]. simpl.
  by destruct (py_index (length r) y).
Qed.

(** The heap version computes the value [core.make_move] describes, on
    new row objects, and leaves every object that existed before as it was. *)
Lemma heap_make_move_refines (h : heap.heap) (b : heap.board_ref) (x y : Z) (s : string) :
  ∃ h' r, heap.make_move h b x y s = (h', r) ∧
    (∀ a : nat, (a < length h)%nat → h' !! a = h !! a) ∧
    match r with
    | Ok b' =>
        make_move (heap.read_board h b) x y s = Ok (heap.read_board h' b') ∧
        Forall (λ a : nat, (length h ≤ a)%nat) b'
    | Raise e => make_move (heap.read_board h b) x y s = Raise e
    | HTTPException _ _ => False
    end.
Proof.
  rewrite make_move_eq.
  unfold heap.make_move, heap.copy_rows.
  unfold heap.read_board, heap.board_ref, heap.heap, heap.addr, board, row, cell in *.
  set (rows := map (λ a : nat, h !!! a) b).
  assert (length rows = length b) as Hlen by apply length_map.
  unfold getitem. rewrite length_seq, Hlen.
  destruct (py_index (length b) x) as [k|] eqn:Hk.
  - pose proof (py_index_lt _ _ _ Hk) as Hlt.
    rewrite lookup_seq_lt by done.
    destruct (rows !! k) as [r|] eqn:Hr.
    2:{ apply lookup_ge_None in Hr. lia. }
    match goal with |- context [setitem ?t y _] => replace t with r end.
    2:{ symmetry. apply list_lookup_total_correct.
        rewrite lookup_app_r by lia. by rewrite Nat.add_sub'. }
    unfold setitem.
    destruct (py_index (length r) y) as [m|] eqn:Hm.
    + eexists _, _. split; [reflexivity|]. split; [|split].
      * intros a Ha. rewrite list_lookup_insert_ne by lia. by apply lookup_app_l.
      * f_equal. rewrite insert_app_r.
        rewrite <- (length_insert rows k (<[m:=Some s]> r)) in Hlen.
        rewrite <- Hlen. symmetry.
        apply (read_board_fresh h (<[k:=<[m:=Some s]> r]> rows)).
      * apply Forall_seq. intros; lia.
    + eexists _, _. split; [reflexivity|]. split; [|done].
      intros a Ha. by apply lookup_app_l.
  - eexists _, _. split; [reflexivity|]. split; [|done].
    intros a Ha. by apply lookup_app_l.
Qed.

(** C10: on a 3×3 board and coordinates in range, [make_move] returns a
    board made of new row objects that holds the symbol at [(x, y)] and
    equals the input at every other cell; every object that existed
    before the call, the rows of the input board among them, is
    unchanged.  Nothing is required of the cell at [(x, y)]: a symbol
    already there is overwritten and no exception is raised. *)
Theorem make_move_fresh_board (h : heap.heap) (b : heap.board_ref)
    (x y : Z) (symbol : string) :
  heap.wf h b → is_3x3 (heap.read_board h b) → 0 ≤ x < 3 → 0 ≤ y < 3 →
  ∃ h' b',
    heap.make_move h b x y symbol = (h', Ok b') ∧
    make_move (heap.read_board h b) x y symbol = Ok (heap.read_board h' b') ∧
    at2 (heap.read_board h' b') x y = Ok (Some symbol) ∧
    (∀ i j, 0 ≤ i < 3 → 0 ≤ j < 3 → (i, j) ≠ (x, y) →
       at2 (heap.read_board h' b') i j = at2 (heap.read_board h b) i j) ∧
    Forall (λ a : nat, (length h ≤ a)%nat) b' ∧
    (∀ a : nat, (a < length h)%nat → h' !! a = h !! a) ∧
    heap.read_board h' b = heap.read_board h b.
Proof.
  intros Hwf H3 Hx Hy.
  destruct (heap_make_move_refines h b x y symbol) as (h' & r & Hrun & Hold & Hr).
  destruct (make_move_3x3 _ x y symbol H3 Hx Hy) as (bd' & Hmv & _ & Hat & Hother).
  destruct r as [b'| |e]; [|done|congruence].
  destruct Hr as [Hval Hfresh].
  assert (bd' = heap.read_board h' b') as -> by congruence.
  exists h', b'. repeat split; try done.
  by apply read_board_old.
Qed.

Lemma make_move_fresh_board_witness :
  ∃ h' b',
    heap.make_move examples.heap0 examples.board0 0 0 "O" = (h', Ok b') ∧
    make_move (heap.read_board examples.heap0 examples.board0) 0 0 "O"
      = Ok (heap.read_board h' b') ∧
    at2 (heap.read_board h' b') 0 0 = Ok (Some "O") ∧
    (∀ i j, 0 ≤ i < 3 → 0 ≤ j < 3 → (i, j) ≠ (0, 0) →
       at2 (heap.read_board h' b') i j
       = at2 (heap.read_board examples.heap0 examples.board0) i j) ∧
    Forall (λ a : nat, (length examples.heap0 ≤ a)%nat) b' ∧
    (∀ a : nat, (a < length examples.heap0)%nat → h' !! a = examples.heap0 !! a) ∧
    heap.read_board h' examples.board0
      = heap.read_board examples.heap0 examples.board0.
Proof.
  apply (make_move_fresh_board examples.heap0 examples.board0 0 0 "O").
  - repeat constructor.
  - split; [reflexivity | repeat constructor].
  - lia.
  - lia.
Defined.

End make_move_facts.

(** ** Sequences of moves *)

Section play_facts.
Import core game.

Lemma is_valid_move_true_range (b : board) (x y : Z) :
  is_valid_move b x y = Ok true → 0 ≤ x < 3 ∧ 0 ≤ y < 3.
Proof.
  unfold is_valid_move.
  destruct ((0 <=? x) && (x <? 3) && (0 <=? y) && (y <? 3)) eqn:E; [|discriminate].
  intros _. by apply in_range_iff.
Qed.

(** A move with [s] completes no line of another symbol. *)
Lemma has_line_make_move (b b' : board) (x y : Z) (s t : string) :
  is_3x3 b → 0 ≤ x < 3 → 0 ≤ y < 3 → make_move b x y s = Ok b' → t ≠ s →
  has_line b' t = true → has_line b t = true.
Proof.
  intros H3 Hx Hy Hmv Hne.
  destruct (is_3x3_inv b H3) as (a0&a1&a2&b0&b1&b2&c0&c1&c2&->).
  rewrite !has_line_true. intros (lines & Hl & Hin).
  range3 x; range3 y; cbv in Hmv; injection Hmv as <-;
    rewrite build_lines_3x3 in Hl; injection Hl as <-;
    (eexists; split; [apply build_lines_3x3|]);
    repeat (apply elem_of_cons in Hin as [Hin|Hin]);
    try (by apply elem_of_nil in Hin);
    simplify_eq; try done; find_line.
Qed.

Lemma make_move_is_3x3 (b b' : board) (x y : Z) (s : string) :
  is_3x3 b → 0 ≤ x < 3 → 0 ≤ y < 3 → make_move b x y s = Ok b' → is_3x3 b'.
Proof.
  intros H3 Hx Hy Hmv.
  destruct (make_move_3x3 b x y s H3 Hx Hy) as (b1 & Hb1 & H31 & _).
  congruence.
Qed.

Lemma check_win_None_no_line (b : board) (s : string) :
  is_3x3 b → check_win b = Ok None → s ≠ EmptyString → has_line b s = false.
Proof.
  intros H3 Hw Hs.
  destruct (check_win_3x3 b H3) as [(t & _ & Ht & _) | [_ Hno]]; [congruence|].
  by apply Hno.
Qed.

(** Moves applied only while nobody has won keep the board 3×3 and never
    leave lines of both symbols on it. *)
Lemma play_until_won_inv (ms : list (Z * Z)) :
  ∀ (b0 : board) (s : string) (b : board),
    is_3x3 b0 →
    ¬ (has_line b0 "X" = true ∧ has_line b0 "O" = true) →
    play_until_won b0 s ms = Some b →
    is_3x3 b ∧ ¬ (has_line b "X" = true ∧ has_line b "O" = true).
Proof.
  induction ms as [|[x y] ms IH]; intros b0 s b H3 Hinv Hplay; simpl in Hplay.
  - by simplify_eq.
  - destruct (check_win b0) as [[w|]| |] eqn:Hw; try discriminate.
    destruct (is_valid_move b0 x y) as [[|]| |] eqn:Hv; try discriminate.
    destruct (make_move b0 x y s) as [b1| |] eqn:Hmv; try discriminate.
    apply is_valid_move_true_range in Hv as [Hx Hy].
    apply (IH b1 (next_turn (Some s)) b); [by apply (make_move_is_3x3 b0 b1 x y s)| |done].
    intros [HX HO].
    destruct (decide (s = "X")) as [->|Hne].
    + apply (has_line_make_move b0 b1 x y "X" "O") in HO; try done.
      by rewrite check_win_None_no_line in HO.
    + apply (has_line_make_move b0 b1 x y s "X") in HX; try done.
      by rewrite check_win_None_no_line in HX.
Qed.

(** C9, amended: on a board obtained from the empty board by moves with
    alternating symbols, X first, each applied where [is_valid_move]
    holds and only while [check_win] finds no winner on the current
    board, [check_win] returns one result, the symbol it returns fills a
    line, and the board does not hold a completed line of X together
    with a completed line of O. *)
Theorem check_win_single_winner (ms : list (Z * Z)) (b : board) :
  play_until_won empty_board "X" ms = Some b →
  (∃ w, check_win b = Ok w ∧ ∀ t, w = Some t → has_line b t = true) ∧
  ¬ (has_line b "X" = true ∧ has_line b "O" = true).
Proof.
  intros Hplay.
  destruct (play_until_won_inv ms empty_board "X" b) as [H3 Hinv]; try done.
  { split; [reflexivity | repeat constructor]. }
  { by intros [? ?]. }
  split; [|done].
  destruct (check_win_3x3 b H3) as [(t & _ & Ht & Hl) | [Hn _]].
  - exists (Some t). split; [done|]. by intros ? [= <-].
  - exists None. by split.
Qed.

Lemma check_win_single_winner_witness :
  (∃ w, check_win [[Some "X"; Some "X"; Some "X"]; [Some "O"; Some "O"; None];
                   [None; None; None]] = Ok w ∧
        ∀ t, w = Some t →
             has_line [[Some "X"; Some "X"; Some "X"]; [Some "O"; Some "O"; None];
                       [None; None; None]] t = true) ∧
  ¬ (has_line [[Some "X"; Some "X"; Some "X"]; [Some "O"; Some "O"; None];
               [None; None; None]] "X" = true ∧
     has_line [[Some "X"; Some "X"; Some "X"]; [Some "O"; Some "O"; None];
               [None; None; None]] "O" = true).
Proof.
  apply (check_win_single_winner examples.x_wins). reflexivity.
Defined.

(** C9 as stated fails: alternating moves at valid cells that go on after
    X has completed the top row reach a board on which the middle row is
    complete for O as well. *)
Lemma check_win_both_lines_counterexample :
  ∃ b, play_alternating empty_board "X" examples.both_rows = Some b ∧
       has_line b "X" = true ∧ has_line b "O" = true.
Proof. eexists. split; [reflexivity|]. split; reflexivity. Qed.

End play_facts.

(** ** The move handler *)

Section handler_facts.
Import core game database main contract.

(** What [validate] has established when it returns a plan. *)
Lemma validate_Ok_inv (g0 : option game_row) (move : MoveCreate) (p : plan) :
  validate g0 move = Ok p →
  ∃ g b b' w dr,
    g0 = Some g ∧ participant g move ∧
    _deserialize_board (g_board g) = Ok b ∧
    ¬ concluded g ∧
    g_next_turn g = Some (assigned_symbol g move) ∧
    is_valid_move b (x move) (y move) = Ok true ∧
    make_move b (x move) (y move) (assigned_symbol g move) = Ok b' ∧
    check_win b' = Ok w ∧ check_draw b' = Ok dr ∧
    p = {| player_symbol := assigned_symbol g move;
           new_board := b';
           next_t := if negb (bool_decide (w = None)) || dr then None
                     else Some (next_turn (g_next_turn g));
           winner_str := if truthy w then w else if dr then Some "Draw" else None;
           finished := negb (bool_decide (w = None)) || dr |}.
Proof.
  unfold validate, participant, concluded, assigned_symbol.
  destruct g0 as [g|]; [|discriminate].
  destruct (bool_decide (player_id move = g_player_x_id g)
            || bool_decide (Some (player_id move) = g_player_o_id g)) eqn:Hp;
    [|discriminate]. simpl.
  destruct (_deserialize_board (g_board g)) as [b| |] eqn:Hb; try discriminate. simpl.
  destruct (truthy (g_winner g)) eqn:Hw; [discriminate|].
  destruct (bool_decide (g_next_turn g = Some _)) eqn:Ht; [|discriminate]. simpl.
  destruct (is_valid_move b (x move) (y move)) as [[|]| |] eqn:Hv; try discriminate. simpl.
  destruct (make_move b _ _ _) as [b'| |] eqn:Hmv; try discriminate. simpl.
  destruct (check_win b') as [w| |] eqn:Hcw; try discriminate. simpl.
  destruct (check_draw b') as [dr| |] eqn:Hcd; try discriminate. simpl.
  intros [= <-]. exists g, b, b', w, dr.
  apply orb_true_iff in Hp. rewrite !bool_decide_eq_true in Hp.
  apply bool_decide_eq_true in Ht.
  repeat split; try done. congruence.
Qed.

(** The state and the response after the writes of an accepted move. *)
Lemma persist_spec (game_id : Z) (move : MoveCreate) (p : plan) (d : db) :
  ∃ d' r mov,
    persist game_id move p d = (d', r) ∧
    db_player d' = db_player d ∧
    db_game d' !! game_id = row_after p (db_now d) <$> db_game d !! game_id ∧
    (∀ k, k ≠ game_id → db_game d' !! k = db_game d !! k) ∧
    db_executed d' = db_executed d ++ statements_of game_id p ∧
    db_move d' = db_move d ++ [mov] ∧
    m_game_id mov = game_id ∧ m_player_id mov = player_id move ∧
    m_x mov = x move ∧ m_y mov = y move ∧ m_symbol mov = player_symbol p ∧
    (r = Raise TypeError ∨ ∃ out, r = Ok out) ∧
    (is_Some (db_player d !! player_id move) → ∃ out, r = Ok out).
Proof.
  unfold persist, statements_of, row_after. fold (stamps p).
  destruct (stamps p) eqn:Hs; simpl; unfold get_player; simpl;
    destruct (db_player d !! player_id move) as [u|] eqn:Hu;
    eexists _, _, _; (split; [reflexivity|]); simpl;
    repeat split; try done;
    try (by rewrite <- ?app_assoc);
    try (by rewrite ?lookup_alter_eq; destruct (db_game d !! game_id));
    try (by intros k Hk; rewrite ?lookup_alter_ne by done);
    try (by right; eexists); try (by left); try (by eexists);
    try (by intros [? ?]).
Qed.

Lemma participant_bool (g : game_row) (move : MoveCreate) :
  bool_decide (player_id move = g_player_x_id g)
  || bool_decide (Some (player_id move) = g_player_o_id g) = true
  ↔ participant g move.
Proof.
  unfold participant. by rewrite orb_true_iff, !bool_decide_eq_true.
Qed.

(** C1, amended: the handler checks, in this order and with the first
    failure winning: the game exists, else NotFound; the player is one of
    the two participants, else NotAParticipant; the game is not
    concluded, else GameFinished; the participant's symbol is the next
    turn, else NotYourTurn; the move is valid on the board, else
    InvalidMove. *)
Theorem submit_move_check_order (game_id : Z) (move : MoveCreate) (d : db) :
  let r := (api_submit_move game_id move d).2 in
  (get_game d game_id = None → r = NotFound) ∧
  (∀ g, get_game d game_id = Some g → ¬ participant g move → r = NotAParticipant) ∧
  (∀ g b, get_game d game_id = Some g → participant g move →
     _deserialize_board (g_board g) = Ok b →
     concluded g → r = GameFinished) ∧
  (∀ g b, get_game d game_id = Some g → participant g move →
     _deserialize_board (g_board g) = Ok b →
     ¬ concluded g → g_next_turn g ≠ Some (assigned_symbol g move) →
     r = NotYourTurn) ∧
  (∀ g b, get_game d game_id = Some g → participant g move →
     _deserialize_board (g_board g) = Ok b →
     ¬ concluded g → g_next_turn g = Some (assigned_symbol g move) →
     is_valid_move b (x move) (y move) = Ok false →
     r = InvalidMove).
Proof.
  unfold api_submit_move, resume, concluded, assigned_symbol. simpl.
  repeat split.
  - by intros ->.
  - intros g -> Hp. unfold validate.
    rewrite <- participant_bool in Hp. apply not_true_is_false in Hp. by rewrite Hp.
  - intros g b -> Hp Hb Hc. unfold validate.
    apply participant_bool in Hp. rewrite Hp, Hb. simpl. by rewrite Hc.
  - intros g b -> Hp Hb Hc Ht. unfold validate.
    apply participant_bool in Hp. rewrite Hp, Hb. simpl.
    apply not_true_is_false in Hc. rewrite Hc.
    by rewrite bool_decide_eq_false_2.
  - intros g b -> Hp Hb Hc Ht Hv. unfold validate.
    apply participant_bool in Hp. rewrite Hp, Hb. simpl.
    apply not_true_is_false in Hc. rewrite Hc.
    rewrite bool_decide_eq_true_2 by done. simpl. by rewrite Hv.
Qed.

Lemma submit_move_check_order_witness :
  (api_submit_move 7 (examples.move_of 10 0 0) examples.no_games).2 = NotFound ∧
  (api_submit_move 1 (examples.move_of 99 0 0) (examples.db_with examples.won_game)).2
    = NotAParticipant ∧
  (api_submit_move 1 (examples.move_of 10 0 0) (examples.db_with examples.won_game)).2
    = GameFinished ∧
  (api_submit_move 1 (examples.move_of 20 0 0) (examples.db_with examples.new_game)).2
    = NotYourTurn ∧
  (api_submit_move 1 (examples.move_of 10 3 0) (examples.db_with examples.new_game)).2
    = InvalidMove.
Proof.
  split; [|split; [|split; [|split]]].
  - destruct (submit_move_check_order 7 (examples.move_of 10 0 0) examples.no_games)
      as (H & _).
    apply H. reflexivity.
  - destruct (submit_move_check_order 1 (examples.move_of 99 0 0)
                (examples.db_with examples.won_game)) as (_ & H & _).
    apply (H examples.won_game); [reflexivity|].
    intros [H1 | H1]; vm_compute in H1; discriminate.
  - destruct (submit_move_check_order 1 (examples.move_of 10 0 0)
                (examples.db_with examples.won_game)) as (_ & _ & H & _).
    eapply (H examples.won_game); [reflexivity | by left | reflexivity | reflexivity].
  - destruct (submit_move_check_order 1 (examples.move_of 20 0 0)
                (examples.db_with examples.new_game)) as (_ & _ & _ & H & _).
    eapply (H examples.new_game); [reflexivity | by right | reflexivity | |].
    + intros H1; vm_compute in H1; discriminate.
    + intros H1; vm_compute in H1; discriminate.
  - destruct (submit_move_check_order 1 (examples.move_of 10 3 0)
                (examples.db_with examples.new_game)) as (_ & _ & _ & _ & H).
    eapply (H examples.new_game);
      [reflexivity | by left | reflexivity | | reflexivity | reflexivity].
    intros H1; vm_compute in H1; discriminate.
Defined.

(** C1 as stated fails: on a concluded game a player who is not a
    participant is answered NotAParticipant, not GameFinished; the
    participant check comes before the check of the outcome. *)
Lemma finished_game_outsider_counterexample :
  get_game (examples.db_with examples.won_game) 1 = Some examples.won_game ∧
  concluded examples.won_game ∧
  ¬ participant examples.won_game (examples.move_of 99 0 0) ∧
  (api_submit_move 1 (examples.move_of 99 0 0) (examples.db_with examples.won_game)).2
    = NotAParticipant ∧
  (api_submit_move 1 (examples.move_of 99 0 0) (examples.db_with examples.won_game)).2
    ≠ GameFinished.
Proof.
  split; [reflexivity|]. split; [reflexivity|]. split.
  - intros [H | H]; vm_compute in H; discriminate.
  - split; [reflexivity | discriminate].
Qed.

(** The handler raises an HTTPException only before its first write. *)
Lemma resume_http_unchanged (g0 : option game_row) (game_id : Z) (move : MoveCreate)
    (d : db) (c : Z) (detail : string) :
  (resume g0 game_id move d).2 = HTTPException c detail →
  (resume g0 game_id move d).1 = d.
Proof.
  unfold resume. destruct (validate g0 move) as [p| |]; try done.
  destruct (persist_spec game_id move p d) as (d' & r & mov & -> & _ & _ & _ & _ & _ &
    _ & _ & _ & _ & _ & [-> | [out ->]] & _); discriminate.
Qed.

(** C4: a call answered NotFound, GameFinished, NotAParticipant,
    NotYourTurn or InvalidMove leaves the database as it was: no
    statement was executed, the game rows (board, next turn, winner) and
    the move history are the same. *)
Theorem rejected_move_changes_nothing (game_id : Z) (move : MoveCreate) (d : db) :
  let r := (api_submit_move game_id move d).2 in
  let d' := (api_submit_move game_id move d).1 in
  r = NotFound ∨ r = GameFinished ∨ r = NotAParticipant ∨ r = NotYourTurn
    ∨ r = InvalidMove →
  d' = d ∧
  db_executed d' = db_executed d ∧
  get_game d' game_id = get_game d game_id ∧
  db_move d' = db_move d.
Proof.
  intros r d' Hr.
  assert (d' = d) as ->; [|done].
  subst r d'. unfold api_submit_move in *.
  destruct Hr as [Hr | [Hr | [Hr | [Hr | Hr]]]];
    by eapply resume_http_unchanged.
Qed.

Lemma rejected_move_changes_nothing_witness :
  (api_submit_move 1 (examples.move_of 20 0 0) (examples.db_with examples.new_game)).1
    = examples.db_with examples.new_game ∧
  db_executed
    (api_submit_move 1 (examples.move_of 20 0 0) (examples.db_with examples.new_game)).1
    = db_executed (examples.db_with examples.new_game) ∧
  get_game
    (api_submit_move 1 (examples.move_of 20 0 0) (examples.db_with examples.new_game)).1 1
    = get_game (examples.db_with examples.new_game) 1 ∧
  db_move
    (api_submit_move 1 (examples.move_of 20 0 0) (examples.db_with examples.new_game)).1
    = db_move (examples.db_with examples.new_game).
Proof.
  apply (rejected_move_changes_nothing 1 (examples.move_of 20 0 0)
           (examples.db_with examples.new_game)).
  right. right. right. left. reflexivity.
Defined.

Lemma scan_lines_truthy (lines : list row) (w : cell) :
  scan_lines lines = Ok w → w = None ∨ truthy w = true.
Proof.
  induction lines as [|line lines IH]; simpl.
  - intros [= <-]. by left.
  - unfold line_wins.
    destruct (getitem line 0) as [c0| |] eqn:H0; try discriminate. simpl.
    destruct (truthy c0) eqn:Ht; simpl; [|done].
    destruct (getitem line 1) as [c1| |]; try discriminate. simpl.
    destruct (bool_decide (c0 = c1)); simpl; [|done].
    destruct (getitem line 2) as [c2| |]; try discriminate. simpl.
    destruct (bool_decide (c1 = c2)); [|done].
    intros [= <-]. by right.
Qed.

Lemma check_win_truthy (b : board) (w : cell) :
  check_win b = Ok w → w = None ∨ truthy w = true.
Proof.
  unfold check_win. destruct (build_lines b) as [lines| |]; try discriminate.
  apply scan_lines_truthy.
Qed.

(** A plan that concludes the game names a winner or a draw, so the
    second UPDATE runs exactly for the concluding moves. *)
Lemma stamps_finished (g0 : option game_row) (move : MoveCreate) (p : plan) :
  validate g0 move = Ok p → stamps p = finished p.
Proof.
  intros (g & b & b' & w & dr & _ & _ & _ & _ & _ & _ & _ & Hw & _ & ->)%validate_Ok_inv.
  unfold stamps. simpl.
  destruct (check_win_truthy b' w Hw) as [-> | Ht].
  - simpl. by destruct dr.
  - rewrite Ht. cbn iota. rewrite Ht. apply andb_true_r.
Qed.

(** C3, amended: on a game row whose board column holds a list, an
    accepted move that does not conclude the game runs one UPDATE of the
    game row and one INSERT of a move row; an accepted move that
    concludes it by win or draw runs two UPDATEs of the game row,
    [update_game_board] (board, next turn, winner) and then
    [finish_game] (winner, finished_at), and one INSERT.  In both cases
    one move row with the player, coordinates and symbol is appended. *)
Theorem accepted_move_statements (game_id : Z) (move : MoveCreate) (d : db) (p : plan)
    (g0 : game_row) (b0 : board) :
  get_game d game_id = Some g0 → g_board g0 = BoardList b0 →
  validate (get_game d game_id) move = Ok p →
  let d' := (api_submit_move game_id move d).1 in
  ∃ stmts mov,
    db_executed d' = db_executed d ++ stmts ∧
    db_move d' = db_move d ++ [mov] ∧
    m_game_id mov = game_id ∧ m_player_id mov = player_id move ∧
    m_x mov = x move ∧ m_y mov = y move ∧ m_symbol mov = player_symbol p ∧
    move_inserts stmts = 1%nat ∧
    (finished p = false →
       stmts = [UpdateGameBoard game_id; InsertMove game_id] ∧
       game_updates stmts = 1%nat) ∧
    (finished p = true →
       stmts = [UpdateGameBoard game_id; UpdateGameFinish game_id; InsertMove game_id] ∧
       game_updates stmts = 2%nat ∧
       (g_finished_at <$> get_game (update_game_board game_id (new_board p) (next_t p)
                                      (winner_str p) d) game_id)
         = (g_finished_at <$> get_game d game_id) ∧
       (g_finished_at <$> get_game d' game_id) = Some (Some (db_now d + 1))).
Proof.
  intros _ _ Hv d'. subst d'. unfold api_submit_move, resume. rewrite Hv.
  pose proof (stamps_finished _ _ _ Hv) as Hs.
  destruct (persist_spec game_id move p d) as (d' & r & mov & -> & _ & Hg & _ & He &
    Hm & Hmg & Hmp & Hmx & Hmy & Hms & _).
  simpl. exists (statements_of game_id p), mov.
  apply validate_Ok_inv in Hv as (g & _ & _ & _ & _ & Hget & _).
  unfold statements_of in *. rewrite Hs in *.
  do 7 (split; [done|]).
  split; [by destruct (finished p)|]. split.
  - intros Hf. by rewrite Hf.
  - intros Hf. rewrite Hf. do 2 (split; [done|]). split.
    + unfold get_game, update_game_board. simpl. rewrite lookup_alter_eq.
      by destruct (db_game d !! game_id).
    + unfold get_game in *. rewrite Hg, Hget. simpl. unfold stamps in *.
      by rewrite Hs, Hf.
Qed.

Lemma accepted_move_statements_witness :
  ∃ stmts,
    db_executed
      (api_submit_move 1 (examples.move_of 10 0 2) (examples.db_with examples.x_to_win)).1
      = db_executed (examples.db_with examples.x_to_win) ++ stmts ∧
    game_updates stmts = 2%nat.
Proof.
  destruct (accepted_move_statements 1 (examples.move_of 10 0 2)
              (examples.db_with examples.x_to_win) examples.winning_plan
              examples.x_to_win
              [[Some "X"; Some "X"; None]; [Some "O"; Some "O"; None];
               [None; None; None]])
    as (stmts & mov & He & _ & _ & _ & _ & _ & _ & _ & _ & Hfin).
  { reflexivity. }
  { reflexivity. }
  { reflexivity. }
  exists stmts. split; [exact He|].
  destruct Hfin as (_ & Hu & _); [reflexivity | exact Hu].
Defined.

(** C3 as stated fails: on a game row that holds its board as a list,
    the accepted move that completes the top row updates the game row
    twice, and finished_at is written by the second update. *)
Lemma winning_move_two_updates_counterexample :
  validate (get_game (examples.db_with examples.x_to_win) 1) (examples.move_of 10 0 2)
    = Ok examples.winning_plan ∧
  db_executed
    (api_submit_move 1 (examples.move_of 10 0 2) (examples.db_with examples.x_to_win)).1
    = [UpdateGameBoard 1; UpdateGameFinish 1; InsertMove 1] ∧
  game_updates
    (db_executed
       (api_submit_move 1 (examples.move_of 10 0 2)
          (examples.db_with examples.x_to_win)).1) ≠ 1%nat.
Proof. split; [reflexivity|]. split; [reflexivity|]. vm_compute. discriminate. Qed.

(** One accepted move: the row it leaves, by the result of [check_win]
    and [check_draw] on the new board. *)
Lemma advance_step (game_id : Z) (move : MoveCreate) (d : db) (p : plan) :
  validate (get_game d game_id) move = Ok p →
  ∃ g b b' w dr g',
    get_game d game_id = Some g ∧
    _deserialize_board (g_board g) = Ok b ∧
    make_move b (x move) (y move) (assigned_symbol g move) = Ok b' ∧
    check_win b' = Ok w ∧ check_draw b' = Ok dr ∧
    get_game (api_submit_move game_id move d).1 game_id = Some g' ∧
    g_board g' = BoardList b' ∧
    finished p = negb (bool_decide (w = None)) || dr ∧
    (g_next_turn g = Some "X" ∨ g_next_turn g = Some "O") ∧
    (w ≠ None → g_winner g' = w ∧ g_next_turn g' = None ∧ concluded g') ∧
    (w = None → dr = true →
       g_winner g' = Some "Draw" ∧ g_next_turn g' = None ∧ concluded g') ∧
    (w = None → dr = false →
       g_winner g' = None ∧ g_next_turn g' = Some (next_turn (g_next_turn g))).
Proof.
  intros Hv. unfold api_submit_move, resume. rewrite Hv.
  destruct (persist_spec game_id move p d) as (d' & r & mov & -> & _ & Hg & _).
  apply validate_Ok_inv in Hv
    as (g & b & b' & w & dr & Hget & _ & Hb & _ & Ht & _ & Hmv & Hw & Hd & ->).
  unfold get_game in *. rewrite Hget in Hg. simpl in *.
  eexists g, b, b', w, dr, _. do 6 (split; [done|]).
  split; [done|]. split; [done|]. split.
  { rewrite Ht. unfold assigned_symbol.
    destruct (bool_decide (player_id move = _)); auto. }
  unfold concluded. simpl. split; [|split].
  - intros Hne. destruct (check_win_truthy b' w Hw) as [? | Hty]; [done|].
    rewrite Hty. rewrite bool_decide_eq_false_2 by done. done.
  - by intros -> ->.
  - by intros -> ->.
Qed.

(** C8: after an accepted move on a game row whose board column holds a
    list, the game row holds the new board and: the
    winner and no next turn when [check_win] finds one on the new board;
    else 'Draw' and no next turn when [check_draw] holds; else no winner
    and the toggled turn, where X toggles to O and O to X.  So from a
    game with X to move, one accepted move that does not conclude the
    game leaves O to move and a second such move leaves X to move. *)
Theorem accepted_move_advance (game_id : Z) (move : MoveCreate) (d : db) (p : plan)
    (g0 : game_row) (b0 : board) :
  get_game d game_id = Some g0 → g_board g0 = BoardList b0 →
  validate (get_game d game_id) move = Ok p →
  let d' := (api_submit_move game_id move d).1 in
  ∃ g b b' w dr g',
    get_game d game_id = Some g ∧
    _deserialize_board (g_board g) = Ok b ∧
    make_move b (x move) (y move) (assigned_symbol g move) = Ok b' ∧
    check_win b' = Ok w ∧ check_draw b' = Ok dr ∧
    get_game d' game_id = Some g' ∧
    g_board g' = BoardList b' ∧
    (w ≠ None → g_winner g' = w ∧ g_next_turn g' = None ∧ concluded g') ∧
    (w = None → dr = true →
       g_winner g' = Some "Draw" ∧ g_next_turn g' = None ∧ concluded g') ∧
    (w = None → dr = false →
       g_winner g' = None ∧ g_next_turn g' = Some (next_turn (g_next_turn g))) ∧
    (g_next_turn g = Some "X" ∨ g_next_turn g = Some "O") ∧
    next_turn (Some "X") = "O" ∧ next_turn (Some "O") = "X" ∧
    (∀ move2 p2,
       g_next_turn g = Some "X" → finished p = false →
       validate (get_game d' game_id) move2 = Ok p2 → finished p2 = false →
       (g_next_turn <$> get_game d' game_id) = Some (Some "O") ∧
       (g_next_turn <$> get_game (api_submit_move game_id move2 d').1 game_id)
         = Some (Some "X")).
Proof.
  intros _ _ Hv d'.
  destruct (advance_step game_id move d p Hv)
    as (g & b & b' & w & dr & g' & Hget & Hb & Hmv & Hw & Hd & Hget' & Hbd & Hfin &
        Hturn & Hwin & Hdraw & Hgo).
  exists g, b, b', w, dr, g'. do 10 (split; [done|]).
  split; [done|]. split; [done|]. split; [done|].
  intros move2 p2 HX Hf Hv2 Hf2. subst d'.
  rewrite Hfin in Hf. apply orb_false_elim in Hf as [Hwn ->].
  apply negb_false_iff, bool_decide_eq_true in Hwn as ->.
  destruct (Hgo eq_refl eq_refl) as [_ Hnt]. rewrite HX in Hnt.
  destruct (advance_step game_id move2 _ p2 Hv2)
    as (g1 & _ & _ & w2 & dr2 & g2 & Hget1 & _ & _ & _ & _ & Hget2 & _ & Hfin2 &
        _ & _ & _ & Hgo2).
  rewrite Hfin2 in Hf2. apply orb_false_elim in Hf2 as [Hwn2 ->].
  apply negb_false_iff, bool_decide_eq_true in Hwn2 as ->.
  destruct (Hgo2 eq_refl eq_refl) as [_ Hnt2].
  assert (g1 = g') as -> by congruence.
  rewrite Hget', Hget2. simpl. rewrite Hnt2, Hnt. done.
Qed.

Lemma accepted_move_advance_witness :
  (g_next_turn <$>
     get_game (api_submit_move 1 (examples.move_of 10 0 0)
                 (examples.db_with examples.blank_game)).1 1)
    = Some (Some "O") ∧
  (g_next_turn <$>
     get_game (api_submit_move 1 (examples.move_of 20 1 1)
                 (api_submit_move 1 (examples.move_of 10 0 0)
                    (examples.db_with examples.blank_game)).1).1 1)
    = Some (Some "X").
Proof.
  destruct (accepted_move_advance 1 (examples.move_of 10 0 0)
              (examples.db_with examples.blank_game) examples.blank_opening_plan
              examples.blank_game empty_board)
    as (g & b & b' & w & dr & g' & Hget & _ & _ & _ & _ & _ & _ & _ & _ & _ & _ & _ &
        _ & Htwo).
  { reflexivity. }
  { reflexivity. }
  { reflexivity. }
  vm_compute in Hget. injection Hget as <-.
  apply (Htwo (examples.move_of 20 1 1) examples.blank_reply_plan); reflexivity.
Defined.

(** [update_game_board] writes the row whatever it holds: the statement
    has no condition on the turn or the winner. *)
Lemma update_game_board_unconditional (game_id : Z) (b : board)
    (t w : option string) (d : db) (g : game_row) :
  get_game d game_id = Some g →
  ∃ g', get_game (update_game_board game_id b t w d) game_id = Some g' ∧
        g_board g' = BoardList b ∧ g_next_turn g' = t ∧ g_winner g' = w.
Proof.
  unfold get_game, update_game_board. simpl. intros Hg.
  rewrite lookup_alter_eq, Hg. by eexists.
Qed.

(** A handler that runs its statements without another one in between
    does what [persist] does. *)
Lemma persist_is_steps (game_id : Z) (move1 move2 : MoveCreate) (p : plan)
    (h2 : race.pending) (d : db) :
  race.interleave [true; true; true; true] game_id move1 move2 (race.AtUpdate p) h2 d
  = ((persist game_id move1 p d).1, race.Returned (persist game_id move1 p d).2, h2).
Proof.
  unfold persist. simpl.
  destruct (finished p && truthy (winner_str p)); simpl;
    by destruct (get_player _ _).
Qed.

Lemma persist_is_steps_second (game_id : Z) (move1 move2 : MoveCreate) (p : plan)
    (h1 : race.pending) (d : db) :
  race.interleave [false; false; false; false] game_id move1 move2 h1 (race.AtUpdate p) d
  = ((persist game_id move2 p d).1, h1, race.Returned (persist game_id move2 p d).2).
Proof.
  unfold persist. simpl.
  destruct (finished p && truthy (winner_str p)); simpl;
    by destruct (get_player _ _).
Qed.

Lemma interleave_app (s1 s2 : list bool) (game_id : Z) (move1 move2 : MoveCreate)
    (h1 h2 : race.pending) (d : db) :
  race.interleave (s1 ++ s2) game_id move1 move2 h1 h2 d
  = let '(d', h1', h2') := race.interleave s1 game_id move1 move2 h1 h2 d in
    race.interleave s2 game_id move1 move2 h1' h2' d'.
Proof.
  revert h1 h2 d. induction s1 as [|[|] s1 IH]; intros h1 h2 d; simpl.
  - done.
  - destruct (race.step game_id move1 h1 d). apply IH.
  - destruct (race.step game_id move2 h2 d). apply IH.
Qed.

Lemma consistent_sym (game_id : Z) (move1 move2 : MoveCreate) (p1 p2 : plan)
    (d0 dc : db) (h1 h2 : race.pending) :
  race.consistent game_id move1 move2 p1 p2 d0 dc h1 h2 →
  race.consistent game_id move2 move1 p2 p1 d0 dc h2 h1.
Proof.
  intros (Hpl & (g & Hg & Hb) & rows1 & rows2 & T1 & T2 & Hm).
  split; [done|]. split.
  - exists g. split; [done|]. rewrite orb_comm. intros H. destruct (Hb H); auto.
  - exists rows2, rows1. split; [done|]. split; [done|]. destruct Hm; auto.
Qed.

Lemma step_consistent (game_id : Z) (move1 move2 : MoveCreate) (p1 p2 : plan)
    (d0 dc : db) (h1 h2 : race.pending) :
  is_Some (get_player d0 (player_id move1)) →
  race.consistent game_id move1 move2 p1 p2 d0 dc h1 h2 →
  race.consistent game_id move1 move2 p1 p2 d0
    (race.step game_id move1 h1 dc).1 (race.step game_id move1 h1 dc).2 h2.
Proof.
  intros Hplayer (Hpl & (g & Hg & Hb) & rows1 & rows2 & T1 & T2 & Hm).
  unfold race.consistent, get_game in *.
  destruct h1 as [q|q|q|mov|r]; simpl in T1.
  - destruct T1 as [-> ->]. unfold race.step, update_game_board. simpl.
    split; [done|]. split.
    + rewrite lookup_alter_eq, Hg. simpl. eexists. split; [done|]. intros _. by left.
    + exists [], rows2. split; [by destruct (finished p1 && truthy (winner_str p1))|].
      split; [done|]. done.
  - destruct T1 as [-> ->]. unfold race.step, finish_game. simpl.
    split; [done|]. split.
    + rewrite lookup_alter_eq, Hg. simpl. eexists. split; [done|]. intros _. by apply Hb.
    + exists [], rows2. by repeat split.
  - destruct T1 as [-> ->]. unfold race.step, add_move. simpl.
    split; [done|]. split.
    + exists g. split; [done|]. intros _. by apply Hb.
    + eexists [_], rows2. split; [by repeat split|]. split; [done|].
      right. destruct Hm as [-> | ->]; simpl; by rewrite ?app_nil_r, <- ?app_assoc.
  - unfold race.step. simpl. split; [done|]. split; [by exists g|].
    exists rows1, rows2. split; [|done].
    destruct T1 as (-> & Hx & Hy & Hs).
    unfold get_player in *. rewrite Hpl.
    destruct (db_player d0 !! player_id move1) as [u|]; [|by destruct Hplayer].
    eexists _, mov. by repeat split.
  - unfold race.step. simpl. split; [done|]. split; [by exists g|]. by exists rows1, rows2.
Qed.

(** At every point of every interleaving the players are as at the
    start, the game row exists and, once a handler has updated it, holds
    the board of one of the two plans, and the move table has grown by
    the rows the handlers inserted. *)
Lemma interleave_consistent (schedule : list bool) (game_id : Z)
    (move1 move2 : MoveCreate) (p1 p2 : plan) (d0 : db) :
  is_Some (get_player d0 (player_id move1)) →
  is_Some (get_player d0 (player_id move2)) →
  ∀ (h1 h2 : race.pending) (dc : db),
    race.consistent game_id move1 move2 p1 p2 d0 dc h1 h2 →
    race.consistent game_id move1 move2 p1 p2 d0
      (race.interleave schedule game_id move1 move2 h1 h2 dc).1.1
      (race.interleave schedule game_id move1 move2 h1 h2 dc).1.2
      (race.interleave schedule game_id move1 move2 h1 h2 dc).2.
Proof.
  intros Hp1 Hp2. induction schedule as [|[|] schedule IH]; intros h1 h2 dc Hc; simpl.
  - done.
  - pose proof (step_consistent game_id move1 move2 p1 p2 d0 dc h1 h2 Hp1 Hc) as Hs.
    destruct (race.step game_id move1 h1 dc) as [d' h1']. by apply IH.
  - pose proof (step_consistent game_id move2 move1 p2 p1 d0 dc h2 h1 Hp2
                  (consistent_sym _ _ _ _ _ _ _ _ _ Hc)) as Hs.
    destruct (race.step game_id move2 h2 dc) as [d' h2'].
    by apply IH, consistent_sym.
Qed.

(** C2, amended: the persist step is an UPDATE keyed by the game id
    alone; it is not conditioned on the turn that was validated or on the
    winner.  The handler never answers Conflict and never retries: of two
    submissions that were both validated against the same game row, a
    row whose board column holds a list, both succeed in whatever order
    their statements run; each inserts its move, and the row is left
    with the board of one of the two.  When the first handler finishes
    before the second starts to write, the row is left as the second
    wrote it. *)
Theorem stale_submissions_both_succeed (game_id : Z) (move1 move2 : MoveCreate)
    (d : db) (p1 p2 : plan) (g : game_row) (b : board) :
  get_game d game_id = Some g → g_board g = BoardList b →
  validate (Some g) move1 = Ok p1 →
  validate (Some g) move2 = Ok p2 →
  is_Some (get_player d (player_id move1)) →
  is_Some (get_player d (player_id move2)) →
  (∀ b1 t w d0 g0, get_game d0 game_id = Some g0 →
     ∃ g1, get_game (update_game_board game_id b1 t w d0) game_id = Some g1 ∧
           g_board g1 = BoardList b1 ∧ g_next_turn g1 = t ∧ g_winner g1 = w) ∧
  (∀ schedule d' r1 r2,
     race.interleave schedule game_id move1 move2 (race.AtUpdate p1) (race.AtUpdate p2) d
       = (d', race.Returned r1, race.Returned r2) →
     (∃ out1 out2, r1 = Ok out1 ∧ r2 = Ok out2 ∧
                   (mo_x out1, mo_y out1) = (x move1, y move1) ∧
                   (mo_x out2, mo_y out2) = (x move2, y move2)) ∧
     (∃ g', get_game d' game_id = Some g' ∧
            (g_board g' = BoardList (new_board p1) ∨
             g_board g' = BoardList (new_board p2))) ∧
     ∃ mov1 mov2,
       (db_move d' = db_move d ++ [mov1; mov2] ∨ db_move d' = db_move d ++ [mov2; mov1]) ∧
       (m_x mov1, m_y mov1, m_symbol mov1) = (x move1, y move1, player_symbol p1) ∧
       (m_x mov2, m_y mov2, m_symbol mov2) = (x move2, y move2, player_symbol p2)) ∧
  ∃ d' out1 out2 g',
    submit_both game_id move1 move2 d = (d', Ok out1, Ok out2) ∧
    race.interleave [true; true; true; true; false; false; false; false]
      game_id move1 move2 (race.AtUpdate p1) (race.AtUpdate p2) d
      = (d', race.Returned (Ok out1), race.Returned (Ok out2)) ∧
    get_game d' game_id = Some g' ∧
    g_board g' = BoardList (new_board p2) ∧
    g_next_turn g' = next_t p2 ∧
    g_winner g' = winner_str p2 ∧
    db_executed d' = db_executed d ++ statements_of game_id p1 ++ statements_of game_id p2.
Proof.
  intros Hg _ Hv1 Hv2 Hp1 Hp2. split; [|split].
  { intros b1 t w d0 g0. apply update_game_board_unconditional. }
  { intros schedule d' r1 r2 Hrun.
    assert (race.consistent game_id move1 move2 p1 p2 d d
              (race.AtUpdate p1) (race.AtUpdate p2)) as Hstart.
    { split; [done|]. split; [exists g; split; [done | discriminate]|].
      exists [], []. split; [done|]. split; [done|]. left. simpl. by rewrite app_nil_r. }
    pose proof (interleave_consistent schedule game_id move1 move2 p1 p2 d Hp1 Hp2
                  _ _ _ Hstart) as Hend.
    rewrite Hrun in Hend. simpl in Hend.
    destruct Hend as (_ & (g' & Hg' & Hb') & rows1 & rows2 & T1 & T2 & Hm).
    destruct T1 as (out1 & mov1 & -> & -> & Hx1 & Hy1 & Hs1 & Hox1 & Hoy1).
    destruct T2 as (out2 & mov2 & -> & -> & Hx2 & Hy2 & Hs2 & Hox2 & Hoy2).
    split; [|split].
    - exists out1, out2. repeat split; congruence.
    - exists g'. split; [done|]. by apply Hb'.
    - exists mov1, mov2. split; [done|]. split; congruence. }
  unfold submit_both, resume. rewrite Hg, Hv1, Hv2.
  change [true; true; true; true; false; false; false; false]
    with ([true; true; true; true] ++ [false; false; false; false]).
  rewrite interleave_app, persist_is_steps.
  destruct (persist_spec game_id move1 p1 d) as (d1 & r1 & mov1 & -> & Hpl1 & Hg1 & _ &
    He1 & Hm1 & _ & _ & Hx1 & Hy1 & _ & _ & Hok1).
  cbn [fst snd]. rewrite persist_is_steps_second.
  destruct (persist_spec game_id move2 p2 d1) as (d2 & r2 & mov2 & -> & Hpl2 & Hg2 & _ &
    He2 & Hm2 & _ & _ & Hx2 & Hy2 & _ & _ & Hok2).
  cbn [fst snd].
  unfold get_player in Hp1, Hp2.
  destruct Hok1 as [out1 ->].
  { destruct (db_player d !! player_id move1); [done | by destruct Hp1]. }
  destruct Hok2 as [out2 ->].
  { rewrite Hpl1. destruct (db_player d !! player_id move2); [done | by destruct Hp2]. }
  unfold get_game in *. rewrite Hg1, Hg in Hg2. simpl in Hg2.
  eexists d2, out1, out2, _.
  split; [done|]. split; [done|]. split; [exact Hg2|]. do 3 (split; [done|]).
  by rewrite He2, He1, <- app_assoc.
Qed.

(** The row need not be what one handler wrote: when the second
    handler's update runs between the two updates of a first handler
    that concludes the game, the row holds the second handler's board
    and next turn with the first handler's winner. *)
Lemma interleaved_updates_mix :
  validate (Some examples.x_to_win) (examples.move_of 10 0 2)
    = Ok examples.winning_plan ∧
  validate (Some examples.x_to_win) (examples.move_of 10 2 2)
    = Ok examples.x_corner_plan ∧
  ∃ d' out1 out2 g',
    race.interleave [true; false; true; true; true; false; false]
      1 (examples.move_of 10 0 2) (examples.move_of 10 2 2)
      (race.AtUpdate examples.winning_plan) (race.AtUpdate examples.x_corner_plan)
      (examples.db_with examples.x_to_win)
      = (d', race.Returned (Ok out1), race.Returned (Ok out2)) ∧
    get_game d' 1 = Some g' ∧
    g_board g' = BoardList (new_board examples.x_corner_plan) ∧
    g_next_turn g' = Some "O" ∧ g_winner g' = Some "X".
Proof.
  split; [reflexivity|]. split; [reflexivity|].
  eexists _, _, _, _. split; [vm_compute; reflexivity|].
  split; [vm_compute; reflexivity|]. by repeat split.
Qed.

Lemma stale_submissions_both_succeed_witness :
  ∃ d' out1 out2,
    submit_both 1 (examples.move_of 10 0 0) (examples.move_of 10 1 1)
      (examples.db_with examples.blank_game) = (d', Ok out1, Ok out2).
Proof.
  destruct (stale_submissions_both_succeed 1 (examples.move_of 10 0 0)
              (examples.move_of 10 1 1) (examples.db_with examples.blank_game)
              examples.blank_opening_plan examples.blank_centre_plan
              examples.blank_game empty_board)
    as (_ & _ & d' & out1 & out2 & _ & Hrun & _).
  - reflexivity.
  - reflexivity.
  - reflexivity.
  - reflexivity.
  - vm_compute. eexists. reflexivity.
  - vm_compute. eexists. reflexivity.
  - exists d', out1, out2. exact Hrun.
Defined.

(** C2 as stated fails: two submissions for X's turn on a game row that
    holds its board as a list, both validated before either writes, both
    succeed; neither is answered with an error, two moves are recorded,
    and the board keeps only the mark of the later write. *)
Lemma stale_submission_no_conflict_counterexample :
  validate (get_game (examples.db_with examples.blank_game) 1) (examples.move_of 10 0 0)
    = Ok examples.blank_opening_plan ∧
  validate (get_game (examples.db_with examples.blank_game) 1) (examples.move_of 10 1 1)
    = Ok examples.blank_centre_plan ∧
  ∃ d' out1 out2,
    submit_both 1 (examples.move_of 10 0 0) (examples.move_of 10 1 1)
      (examples.db_with examples.blank_game) = (d', Ok out1, Ok out2) ∧
    (g_board <$> get_game d' 1)
      = Some (BoardList (new_board examples.blank_centre_plan)) ∧
    length (db_move d') = 2%nat.
Proof.
  split; [reflexivity|]. split; [reflexivity|].
  eexists _, _, _. split; [vm_compute; reflexivity|]. split; reflexivity.
Qed.

Lemma new_board_text_loads :
  _deserialize_board (BoardText new_board_text) = Ok examples.all_empty_strings.
Proof. vm_compute. reflexivity. Qed.

(** C5, amended: a newly created game has next_turn X and no winner, and
    the board the handler loads for it is 3×3 with every cell Empty for
    the core: [is_valid_move] accepts each of the nine coordinates.
    Loading does not normalize cells: [_deserialize_board] returns a
    list as it is, and the core itself takes both None and the empty
    string as Empty. *)
Theorem new_game_loaded (player_x_id : Z) (player_o_id : option Z) (d : db) :
  let d' := (create_game player_x_id player_o_id d).1 in
  let g := (create_game player_x_id player_o_id d).2 in
  get_game d' (g_id g) = Some g ∧
  g_next_turn g = Some "X" ∧ g_winner g = None ∧ ¬ concluded g ∧
  (∃ b, _deserialize_board (g_board g) = Ok b ∧ is_3x3 b ∧
        ∀ i j, 0 ≤ i < 3 → 0 ≤ j < 3 →
          ∃ c, at2 b i j = Ok c ∧ Empty c ∧ is_valid_move b i j = Ok true) ∧
  (∀ b0, _deserialize_board (BoardList b0) = Ok b0) ∧
  is_empty_cell None = true ∧ is_empty_cell (Some EmptyString) = true.
Proof.
  simpl. split; [apply lookup_insert_eq|].
  do 2 (split; [done|]). split; [by unfold concluded|].
  split; [|done].
  exists examples.all_empty_strings. split; [apply new_board_text_loads|].
  split; [split; [reflexivity | repeat constructor]|].
  intros i j Hi Hj.
  range3 i; range3 j; (eexists; split; [reflexivity|]; split; [by right | reflexivity]).
Qed.

Lemma new_game_loaded_witness :
  ∃ c, at2 examples.all_empty_strings 1 2 = Ok c ∧ Empty c ∧
       is_valid_move examples.all_empty_strings 1 2 = Ok true.
Proof.
  destruct (new_game_loaded 10 None examples.no_games)
    as (_ & _ & _ & _ & (b & Hb & _ & Hcells) & _).
  vm_compute in Hb. injection Hb as <-.
  apply (Hcells 1 2); lia.
Defined.

(** C5 as stated fails: the board loaded for a newly created game holds
    the empty string in its cells, not None, and loading a stored list
    returns it with those cells. *)
Lemma new_game_cells_counterexample :
  _deserialize_board (g_board (create_game 10 None examples.no_games).2)
    = Ok examples.all_empty_strings ∧
  at2 examples.all_empty_strings 0 0 = Ok (Some EmptyString) ∧
  at2 examples.all_empty_strings 0 0 ≠ Ok None ∧
  examples.all_empty_strings ≠ empty_board ∧
  _deserialize_board (BoardList examples.all_empty_strings)
    = Ok examples.all_empty_strings.
Proof.
  split; [vm_compute; reflexivity|]. split; [reflexivity|].
  split; [discriminate|]. split; [discriminate | reflexivity].
Qed.

End handler_facts.

(** * Further properties of the code *)

(** ** core.py *)

Section core_more.
Import core game tally.

(** The first cell of the first winning line is what [scan_lines]
    returns. *)
Lemma scan_lines_first (lines : list row) (s : string) :
  Forall (λ l : row, length l = 3%nat) lines →
  scan_lines lines = Ok (Some s) →
  ∃ i : nat, lines !! i = Some [Some s; Some s; Some s] ∧
    ∀ (j : nat) (t : string), (j < i)%nat → t ≠ EmptyString →
      lines !! j ≠ Some [Some t; Some t; Some t].
Proof.
  induction 1 as [|l lines Hl _ IH].
  - discriminate.
  - destruct l as [|c0 [|c1 [|c2 [|]]]]; try discriminate.
    rewrite scan_lines_cons3. destruct (line_won c0 c1 c2) eqn:E.
    + intros [= ->]. apply line_won_true in E as (t & _ & [= ->] & -> & ->).
      exists 0%nat. split; [done|]. intros; lia.
    + intros (i & Hi & Hbefore)%IH. exists (S i). split; [done|].
      intros [|j] t Hj Ht; simpl.
      * intros [= -> -> ->].
        assert (line_won (Some t) (Some t) (Some t) = true); [|congruence].
        apply line_won_true. by exists t.
      * apply Hbefore; [lia | done].
Qed.

(** X1: on a 3×3 board [check_win] returns None exactly when no line is
    filled with one non-empty symbol, and a symbol it returns is
    non-empty and fills a line. *)
Theorem check_win_sound_complete (b : board) :
  is_3x3 b →
  (∃ w, check_win b = Ok w) ∧
  (check_win b = Ok None ↔ ∀ s, s ≠ EmptyString → has_line b s = false) ∧
  (∀ s, check_win b = Ok (Some s) → s ≠ EmptyString ∧ has_line b s = true).
Proof.
  intros H3.
  destruct (check_win_3x3 b H3) as [(s & Hs & Hw & Hl) | [Hw Hno]].
  - split; [eauto|]. split.
    + split; [congruence|]. intros Hno. rewrite Hno in Hl; done.
    + intros t Ht. assert (t = s) as -> by congruence. done.
  - split; [eauto|]. split; [done|]. congruence.
Qed.

Lemma check_win_sound_complete_witness :
  (∃ w, check_win empty_board = Ok w) ∧
  (check_win empty_board = Ok None ↔
   ∀ s, s ≠ EmptyString → has_line empty_board s = false) ∧
  (∀ s, check_win empty_board = Ok (Some s) →
        s ≠ EmptyString ∧ has_line empty_board s = true).
Proof.
  apply (check_win_sound_complete empty_board).
  split; [reflexivity | repeat constructor].
Defined.

(** X2: when several lines are complete, [check_win] returns the symbol
    of the first one in the order row 0, column 0, row 1, column 1,
    row 2, column 2, diagonal, anti-diagonal. *)
Theorem check_win_first_line (a0 a1 a2 b0 b1 b2 c0 c1 c2 : cell) (s : string) :
  check_win [[a0; a1; a2]; [b0; b1; b2]; [c0; c1; c2]] = Ok (Some s) →
  ∃ i : nat,
    [[a0; a1; a2]; [a0; b0; c0]; [b0; b1; b2]; [a1; b1; c1];
     [c0; c1; c2]; [a2; b2; c2]; [a0; b1; c2]; [a2; b1; c0]] !! i
      = Some [Some s; Some s; Some s] ∧
    ∀ (j : nat) (t : string), (j < i)%nat → t ≠ EmptyString →
      [[a0; a1; a2]; [a0; b0; c0]; [b0; b1; b2]; [a1; b1; c1];
       [c0; c1; c2]; [a2; b2; c2]; [a0; b1; c2]; [a2; b1; c0]] !! j
        ≠ Some [Some t; Some t; Some t].
Proof.
  rewrite (check_win_lines _ _ (build_lines_3x3 a0 a1 a2 b0 b1 b2 c0 c1 c2)).
  apply scan_lines_first. by repeat constructor.
Qed.

Lemma check_win_first_line_witness :
  ∃ i : nat,
    [[Some "O"; Some "X"; None]; [Some "O"; Some "O"; Some "O"];
     [Some "O"; Some "X"; None]; [Some "X"; Some "X"; Some "X"];
     [Some "O"; Some "X"; None]; [None; None; None];
     [Some "O"; Some "X"; None]; [None; Some "X"; Some "O"]] !! i
      = Some [Some "O"; Some "O"; Some "O"] ∧
    ∀ (j : nat) (t : string), (j < i)%nat → t ≠ EmptyString →
      [[Some "O"; Some "X"; None]; [Some "O"; Some "O"; Some "O"];
       [Some "O"; Some "X"; None]; [Some "X"; Some "X"; Some "X"];
       [Some "O"; Some "X"; None]; [None; None; None];
       [Some "O"; Some "X"; None]; [None; Some "X"; Some "O"]] !! j
        ≠ Some [Some t; Some t; Some t].
Proof.
  apply (check_win_first_line (Some "O") (Some "X") None
           (Some "O") (Some "X") None (Some "O") (Some "X") None "O").
  reflexivity.
Defined.

(** X3: whatever the board, also one that is not 3×3, a result of
    [check_win] is None or a non-empty string; it never returns the empty
    string of a legacy cell. *)
Theorem check_win_never_empty (b : board) (w : cell) :
  check_win b = Ok w → w ≠ Some EmptyString ∧ (w = None ∨ truthy w = true).
Proof.
  intros Hw. destruct (check_win_truthy b w Hw) as [-> | Ht].
  - split; [done | by left].
  - split; [by intros -> | by right].
Qed.

Lemma check_win_never_empty_witness :
  Some "X" ≠ Some EmptyString ∧
  (Some "X" = None ∨ truthy (Some "X") = true).
Proof.
  apply (check_win_never_empty
           [[Some "X"; Some "X"; Some "X"; Some "O"]; [Some "O"; Some "O"; None];
            [None; None; None]]
           (Some "X")).
  reflexivity.
Defined.

Lemma py_index_3 (i : Z) :
  py_index 3 i = if bool_decide (-3 ≤ i < 3) then Some (Z.to_nat (i `mod` 3)) else None.
Proof.
  unfold py_index. repeat case_bool_decide; try lia; f_equal.
  - rewrite Z.mod_small; lia.
  - assert (i = -3 ∨ i = -2 ∨ i = -1) as [-> | [-> | ->]] by lia; reflexivity.
Qed.

(** X4: on a 3×3 board [make_move] raises IndexError exactly when a
    coordinate is outside -3..2; a negative coordinate in range counts
    from the end, so the call writes the cell at the coordinates taken
    modulo 3. *)
Theorem make_move_index_range (b : board) (x y : Z) (s : string) :
  is_3x3 b →
  (make_move b x y s = Raise IndexError ↔ ¬ (-3 ≤ x < 3 ∧ -3 ≤ y < 3)) ∧
  (-3 ≤ x < 3 → -3 ≤ y < 3 →
   ∃ b', make_move b x y s = Ok b' ∧ make_move b (x `mod` 3) (y `mod` 3) s = Ok b').
Proof.
  intros H3. destruct (is_3x3_inv b H3) as (a0&a1&a2&b0&b1&b2&c0&c1&c2&->).
  assert (-3 ≤ x < 3 → -3 ≤ y < 3 →
    ∃ b', make_move [[a0; a1; a2]; [b0; b1; b2]; [c0; c1; c2]] x y s = Ok b' ∧
          make_move [[a0; a1; a2]; [b0; b1; b2]; [c0; c1; c2]]
            (x `mod` 3) (y `mod` 3) s = Ok b') as Hin.
  { intros Hx Hy.
    assert (x = -3 ∨ x = -2 ∨ x = -1 ∨ x = 0 ∨ x = 1 ∨ x = 2)
      as [-> | [-> | [-> | [-> | [-> | ->]]]]] by lia;
    assert (y = -3 ∨ y = -2 ∨ y = -1 ∨ y = 0 ∨ y = 1 ∨ y = 2)
      as [-> | [-> | [-> | [-> | [-> | ->]]]]] by lia;
    by eexists. }
  split; [|done]. split.
  - intros Hr [Hx Hy]. destruct (Hin Hx Hy) as (b' & Hb' & _). congruence.
  - intros Hout. rewrite make_move_eq. simpl length. rewrite py_index_3.
    case_bool_decide as Hx; [|done].
    assert (x `mod` 3 = 0 ∨ x `mod` 3 = 1 ∨ x `mod` 3 = 2) as [-> | [-> | ->]]
      by (pose proof (Z.mod_pos_bound x 3); lia);
      simpl; rewrite py_index_3; (case_bool_decide; [lia | done]).
Qed.

Lemma make_move_index_range_witness :
  (make_move empty_board (-1) 5 "X" = Raise IndexError ↔
   ¬ (-3 ≤ -1 < 3 ∧ -3 ≤ 5 < 3)) ∧
  (-3 ≤ -1 < 3 → -3 ≤ 5 < 3 →
   ∃ b', make_move empty_board (-1) 5 "X" = Ok b' ∧
         make_move empty_board (-1 `mod` 3) (5 `mod` 3) "X" = Ok b').
Proof.
  apply (make_move_index_range empty_board (-1) 5 "X").
  split; [reflexivity | repeat constructor].
Defined.

Lemma py_index_nonneg (len : nat) (i : Z) :
  0 ≤ i →
  py_index len i = if bool_decide (i < Z.of_nat len) then Some (Z.to_nat i) else None.
Proof. intros Hi. unfold py_index. repeat case_bool_decide; try lia; done. Qed.

Lemma getitem_nonneg {A} (l : list A) (i : Z) :
  0 ≤ i →
  getitem l i = match l !! Z.to_nat i with Some a => Ok a | None => Raise IndexError end.
Proof.
  intros Hi. unfold getitem. rewrite py_index_nonneg by done.
  case_bool_decide as Hlt; [done|].
  rewrite (proj2 (lookup_ge_None l (Z.to_nat i))); [done | lia].
Qed.

Lemma at2_nonneg (b : board) (x y : Z) :
  0 ≤ x → 0 ≤ y →
  at2 b x y = match cell_at b x y with Some c => Ok c | None => Raise IndexError end.
Proof.
  intros Hx Hy. unfold at2, cell_at, board, row, cell in *.
  rewrite getitem_nonneg by done.
  destruct (b !! Z.to_nat x) as [r|]; simpl; [|done].
  by rewrite getitem_nonneg.
Qed.

(** X5: on any board, also one that is not 3×3, [is_valid_move] raises
    nothing but IndexError, and that exactly when both coordinates are in
    0..2 and the board has no cell there; it returns true exactly when
    both coordinates are in 0..2 and the cell there is Empty. *)
Theorem is_valid_move_any_board (b : board) (x y : Z) :
  (is_valid_move b x y = Raise IndexError ↔
   0 ≤ x < 3 ∧ 0 ≤ y < 3 ∧ cell_at b x y = None) ∧
  (is_valid_move b x y = Ok true ↔
   0 ≤ x < 3 ∧ 0 ≤ y < 3 ∧ ∃ c, cell_at b x y = Some c ∧ Empty c) ∧
  (∀ e, is_valid_move b x y = Raise e → e = IndexError) ∧
  (∀ c d, is_valid_move b x y ≠ HTTPException c d).
Proof.
  unfold is_valid_move.
  destruct ((0 <=? x) && (x <? 3) && (0 <=? y) && (y <? 3)) eqn:E.
  - apply in_range_iff in E as [Hx Hy]. rewrite at2_nonneg by lia.
    destruct (cell_at b x y) as [c|]; simpl.
    + split; [|split; [|split]].
      * split; [discriminate | by intros (_ & _ & ?)].
      * split.
        -- intros [= Hc]. apply is_empty_cell_true in Hc. repeat split; eauto; lia.
        -- intros (_ & _ & c' & [= <-] & He). apply is_empty_cell_true in He.
           by rewrite He.
      * discriminate.
      * discriminate.
    + split; [|split; [|split]].
      * split; [intros _; repeat split; lia | done].
      * split; [discriminate | by intros (_ & _ & c & ? & _)].
      * by intros e [= <-].
      * discriminate.
  - assert (¬ (0 ≤ x < 3 ∧ 0 ≤ y < 3)) as Hout.
    { rewrite <- in_range_iff. congruence. }
    split; [|split; [|split]]; try done.
    + split; [discriminate | intros (? & ? & _); by destruct Hout].
    + split; [discriminate | intros (? & ? & _); by destruct Hout].
Qed.

Lemma is_valid_move_true_cell (b : board) (x y : Z) :
  is_valid_move b x y = Ok true →
  0 ≤ x < 3 ∧ 0 ≤ y < 3 ∧ ∃ c, cell_at b x y = Some c ∧ Empty c.
Proof.
  unfold is_valid_move.
  destruct ((0 <=? x) && (x <? 3) && (0 <=? y) && (y <? 3)) eqn:E; [|discriminate].
  apply in_range_iff in E as [Hx Hy]. rewrite at2_nonneg by lia.
  destruct (cell_at b x y) as [c|]; simpl; [|discriminate].
  intros [= Hc]. apply is_empty_cell_true in Hc. repeat split; eauto; lia.
Qed.

(** X6: after [make_move] with a non-empty symbol on a 3×3 board the
    cell is no longer a valid move, and the validity of every other
    coordinate pair is what it was. *)
Theorem played_cell_not_valid (b b' : board) (x y : Z) (s : string) :
  is_3x3 b → 0 ≤ x < 3 → 0 ≤ y < 3 → s ≠ EmptyString →
  make_move b x y s = Ok b' →
  is_valid_move b' x y = Ok false ∧
  ∀ i j, (i, j) ≠ (x, y) → is_valid_move b' i j = is_valid_move b i j.
Proof.
  intros H3 Hx Hy Hs Hmv.
  destruct (make_move_3x3 b x y s H3 Hx Hy) as (b1 & Hb1 & _ & Hat & Hother).
  assert (b1 = b') as -> by congruence.
  unfold is_valid_move. split.
  - rewrite (proj2 (in_range_iff x y)) by done. rewrite Hat. simpl.
    by rewrite bool_decide_eq_false_2.
  - intros i j Hne.
    destruct ((0 <=? i) && (i <? 3) && (0 <=? j) && (j <? 3)) eqn:E; [|done].
    apply in_range_iff in E as [Hi Hj]. by rewrite Hother.
Qed.

Lemma played_cell_not_valid_witness :
  is_valid_move [[None; None; None]; [None; Some "X"; None]; [None; None; None]] 1 1
    = Ok false ∧
  ∀ i j, (i, j) ≠ (1, 1) →
    is_valid_move [[None; None; None]; [None; Some "X"; None]; [None; None; None]] i j
    = is_valid_move empty_board i j.
Proof.
  apply (played_cell_not_valid empty_board _ 1 1 "X").
  - split; [reflexivity | repeat constructor].
  - lia.
  - lia.
  - discriminate.
  - reflexivity.
Defined.

(** X8: a valid move never removes a completed line: on a 3×3 board a
    line filled with a non-empty symbol is still filled after any move
    [is_valid_move] accepts, so a board that has a winner keeps one. *)
Theorem valid_move_keeps_lines (b b' : board) (x y : Z) (s t : string) :
  is_3x3 b → is_valid_move b x y = Ok true → make_move b x y s = Ok b' →
  t ≠ EmptyString → has_line b t = true →
  has_line b' t = true ∧ ∃ w, check_win b' = Ok (Some w).
Proof.
  intros H3 Hv Hmv Ht Hl.
  pose proof (is_valid_move_true_range b x y Hv) as [Hx Hy].
  assert (has_line b' t = true) as Hl'.
  { destruct (is_3x3_inv b H3) as (a0&a1&a2&b0&b1&b2&c0&c1&c2&->).
    revert Hl. rewrite !has_line_true. intros (lines & Hlines & Hin).
    range3 x; range3 y; cbv -[is_empty_cell] in Hv; injection Hv as Hv;
      apply is_empty_cell_true in Hv;
      cbv in Hmv; injection Hmv as <-;
      rewrite build_lines_3x3 in Hlines; injection Hlines as <-;
      (eexists; split; [apply build_lines_3x3|]);
      repeat (apply elem_of_cons in Hin as [Hin|Hin]);
      try (by apply elem_of_nil in Hin);
      destruct Hv as [Hv | Hv]; simplify_eq; find_line. }
  split; [done|].
  assert (is_3x3 b') as H3' by by apply (make_move_is_3x3 b b' x y s).
  destruct (check_win_3x3 b' H3') as [(w & _ & Hw & _) | [_ Hno]]; [eauto|].
  rewrite Hno in Hl'; done.
Qed.

Lemma valid_move_keeps_lines_witness :
  has_line [[Some "X"; Some "X"; Some "X"]; [Some "O"; Some "O"; Some "O"];
            [None; None; None]] "X" = true ∧
  ∃ w, check_win [[Some "X"; Some "X"; Some "X"]; [Some "O"; Some "O"; Some "O"];
                  [None; None; None]] = Ok (Some w).
Proof.
  apply (valid_move_keeps_lines
           [[Some "X"; Some "X"; Some "X"]; [Some "O"; Some "O"; None];
            [None; None; None]] _ 1 2 "O" "X").
  - split; [reflexivity | repeat constructor].
  - reflexivity.
  - reflexivity.
  - discriminate.
  - reflexivity.
Defined.

(** X9: on a 3×3 board for which [check_draw] holds, no move is valid,
    whatever the coordinates. *)
Theorem drawn_board_no_valid_move (b : board) (x y : Z) :
  is_3x3 b → check_draw b = Ok true → is_valid_move b x y = Ok false.
Proof.
  intros H3 Hd. destruct (is_3x3_inv b H3) as (a0&a1&a2&b0&b1&b2&c0&c1&c2&->).
  unfold check_draw in Hd. destruct (existsb _ _) eqn:E; [discriminate|].
  simpl in E.
  repeat match goal with
         | H : _ || _ = false |- _ => apply orb_false_elim in H as [H ?]
         end.
  unfold is_valid_move.
  destruct ((0 <=? x) && (x <? 3) && (0 <=? y) && (y <? 3)) eqn:Hr; [|done].
  apply in_range_iff in Hr as [Hx Hy].
  range3 x; range3 y; cbv -[is_empty_cell]; by f_equal.
Qed.

Lemma drawn_board_no_valid_move_witness :
  is_valid_move [[Some "X"; Some "O"; Some "X"]; [Some "X"; Some "O"; Some "O"];
                 [Some "O"; Some "X"; Some "X"]] 1 1 = Ok false.
Proof.
  apply drawn_board_no_valid_move.
  - split; [reflexivity | repeat constructor].
  - reflexivity.
Defined.

Lemma is_valid_move_any_board_witness :
  is_valid_move [[None; None]; [None; None]] 0 2 = Raise IndexError.
Proof.
  destruct (is_valid_move_any_board [[None; None]; [None; None]] 0 2) as ((_ & H) & _).
  apply H. split; [lia|]. split; [lia | reflexivity].
Defined.

Lemma sum_list_insert {A} (f : A → nat) (l : list A) (m : nat) (c v : A) :
  l !! m = Some c →
  (sum_list (map f (<[m:=v]> l)) + f c = sum_list (map f l) + f v)%nat.
Proof.
  revert m. induction l as [|a l IH]; intros [|m] Hm; simplify_eq/=; [lia|].
  specialize (IH m Hm). lia.
Qed.

Lemma sum_list_concat {A} (f : A → nat) (ls : list (list A)) :
  sum_list (map f (concat ls)) = sum_list (map (λ l, sum_list (map f l)) ls).
Proof.
  induction ls as [|l ls IH]; simpl; [done|].
  by rewrite map_app, sum_list_with_app, IH.
Qed.

Lemma sum_list_le {A} (f g : A → nat) (l : list A) :
  (∀ a, (f a ≤ g a)%nat) → (sum_list (map f l) ≤ sum_list (map g l))%nat.
Proof.
  intros Hfg. induction l as [|a l IH]; simpl; [done|]. specialize (Hfg a). lia.
Qed.

(** A valid move changes one cell, which was Empty, to the symbol: any
    sum over the cells changes by that cell alone. *)
Lemma make_move_sum (b b' : board) (x y : Z) (s : string) :
  is_valid_move b x y = Ok true → make_move b x y s = Ok b' →
  ∃ c, Empty c ∧
    ∀ f : cell → nat,
      (sum_list (map f (concat b')) + f c
       = sum_list (map f (concat b)) + f (Some s))%nat.
Proof.
  intros (Hx & Hy & c & Hc & He)%is_valid_move_true_cell Hmv.
  exists c. split; [done|]. intros f.
  rewrite make_move_eq in Hmv. unfold cell_at, board, row, cell in *.
  destruct (b !! Z.to_nat x) as [r|] eqn:Hr; [|done]. simpl in Hc.
  pose proof (lookup_lt_Some _ _ _ Hr) as Hlx.
  pose proof (lookup_lt_Some _ _ _ Hc) as Hly.
  rewrite py_index_nonneg, bool_decide_eq_true_2 in Hmv by lia.
  rewrite Hr in Hmv.
  rewrite py_index_nonneg, bool_decide_eq_true_2 in Hmv by lia.
  injection Hmv as <-.
  rewrite !sum_list_concat.
  pose proof (sum_list_insert (λ l, sum_list (map f l)) b (Z.to_nat x) r
                (<[Z.to_nat y:=Some s]> r) Hr) as H1.
  pose proof (sum_list_insert f r (Z.to_nat y) c (Some s) Hc) as H2.
  simpl in *. lia.
Qed.

Lemma count_step (b b' : board) (x y : Z) (s : string) :
  is_valid_move b x y = Ok true → make_move b x y s = Ok b' → s ≠ EmptyString →
  count_played b' = S (count_played b) ∧
  count_symbol b' s = S (count_symbol b s) ∧
  ∀ t, t ≠ s → t ≠ EmptyString → count_symbol b' t = count_symbol b t.
Proof.
  intros Hv Hmv Hs. destruct (make_move_sum b b' x y s Hv Hmv) as (c & He & Hsum).
  unfold count_played, count_symbol. split; [|split].
  - specialize (Hsum (λ c : cell, if is_empty_cell c then 0%nat else 1%nat)).
    simpl in Hsum. apply is_empty_cell_true in He. rewrite He in Hsum.
    rewrite bool_decide_eq_false_2 in Hsum by done. lia.
  - specialize (Hsum (λ c : cell, if bool_decide (c = Some s) then 1%nat else 0%nat)).
    simpl in Hsum. rewrite (bool_decide_eq_true_2 (Some s = Some s)) in Hsum by done.
    rewrite bool_decide_eq_false_2 in Hsum; [lia|].
    destruct He as [-> | ->]; congruence.
  - intros t Hts Ht.
    specialize (Hsum (λ c : cell, if bool_decide (c = Some t) then 1%nat else 0%nat)).
    simpl in Hsum. rewrite (bool_decide_eq_false_2 (Some s = Some t)) in Hsum by congruence.
    rewrite bool_decide_eq_false_2 in Hsum; [lia|].
    destruct He as [-> | ->]; congruence.
Qed.

Lemma count_symbol_le_played (b : board) (t : string) :
  t ≠ EmptyString → (count_symbol b t ≤ count_played b)%nat.
Proof.
  intros Ht. apply sum_list_le. intros [u|]; simpl; [|lia].
  repeat case_bool_decide; simplify_eq; lia.
Qed.

Lemma count_played_3x3 (b : board) : is_3x3 b → (count_played b ≤ 9)%nat.
Proof.
  intros H3. destruct (is_3x3_inv b H3) as (a0&a1&a2&b0&b1&b2&c0&c1&c2&->).
  unfold count_played.
  etransitivity; [apply (sum_list_le _ (λ _, 1%nat)); intros c; destruct (is_empty_cell c); lia|].
  simpl. lia.
Qed.

Lemma play_alternating_counts (ms : list (Z * Z)) :
  ∀ (b0 : board) (s : string) (b : board),
    s = "X" ∨ s = "O" → is_3x3 b0 →
    play_alternating b0 s ms = Some b →
    is_3x3 b ∧
    count_played b = (count_played b0 + length ms)%nat ∧
    count_symbol b s = (count_symbol b0 s + (length ms + 1) / 2)%nat ∧
    count_symbol b (next_turn (Some s))
      = (count_symbol b0 (next_turn (Some s)) + length ms / 2)%nat.
Proof.
  induction ms as [|[x y] ms IH]; intros b0 s b Hs H3 Hplay; simpl in Hplay.
  - simplify_eq. cbn [length].
    change ((0 + 1) / 2)%nat with 0%nat. change (0 / 2)%nat with 0%nat.
    split; [done|]. repeat split; lia.
  - destruct (is_valid_move b0 x y) as [[|]| |] eqn:Hv; try discriminate.
    destruct (make_move b0 x y s) as [b1| |] eqn:Hmv; try discriminate.
    pose proof (is_valid_move_true_range b0 x y Hv) as [Hx Hy].
    assert (is_3x3 b1) as H31 by by apply (make_move_is_3x3 b0 b1 x y s).
    assert (s ≠ EmptyString) as Hne by (destruct Hs as [-> | ->]; done).
    destruct (count_step b0 b1 x y s Hv Hmv Hne) as (Hp & Hcs & Hct).
    assert (next_turn (Some s) = "X" ∨ next_turn (Some s) = "O") as Hs'
      by (destruct Hs as [-> | ->]; auto).
    destruct (IH b1 (next_turn (Some s)) b Hs' H31 Hplay) as (H3b & Hpb & Hsb & Htb).
    assert (next_turn (Some (next_turn (Some s))) = s) as Hback
      by (destruct Hs as [-> | ->]; done).
    rewrite Hback in Htb.
    rewrite (Hct (next_turn (Some s))) in Hsb; [| |].
    + split; [done|]. cbn [length].
      assert (((S (length ms) + 1) / 2 = S (length ms / 2))%nat) as ->.
      { replace (S (length ms) + 1)%nat with (length ms + 1 * 2)%nat by lia.
        rewrite Nat.div_add by lia. lia. }
      replace (S (length ms)) with (length ms + 1)%nat at 2 by lia.
      repeat split; lia.
    + destruct Hs as [-> | ->]; done.
    + destruct Hs as [-> | ->]; done.
Qed.

(** X7: after [n] alternating valid moves, X first, from a 3×3 board with
    every cell Empty, exactly [n] cells are played, X holds the larger
    half of them and O the smaller half; no such sequence has more than
    nine moves. *)
Theorem alternating_play_counts (b0 b : board) (ms : list (Z * Z)) :
  is_3x3 b0 → count_played b0 = 0%nat →
  play_alternating b0 "X" ms = Some b →
  count_played b = length ms ∧
  count_symbol b "X" = ((length ms + 1) / 2)%nat ∧
  count_symbol b "O" = (length ms / 2)%nat ∧
  (length ms ≤ 9)%nat.
Proof.
  intros H3 H0 Hplay.
  destruct (play_alternating_counts ms b0 "X" b) as (H3b & Hp & HX & HO); auto.
  change (next_turn (Some "X")) with "O" in HO.
  pose proof (count_symbol_le_played b0 "X") as HX0.
  pose proof (count_symbol_le_played b0 "O") as HO0.
  pose proof (count_played_3x3 b H3b).
  assert (count_symbol b0 "X" = 0%nat) as E1 by (specialize (HX0 ltac:(done)); lia).
  assert (count_symbol b0 "O" = 0%nat) as E2 by (specialize (HO0 ltac:(done)); lia).
  rewrite E1 in HX. rewrite E2 in HO. rewrite H0 in Hp. simpl in *.
  repeat split; try done. lia.
Qed.

Lemma alternating_play_counts_witness :
  count_played [[Some "X"; Some "X"; Some "X"]; [Some "O"; Some "O"; Some "O"];
                [None; None; None]] = length examples.both_rows ∧
  count_symbol [[Some "X"; Some "X"; Some "X"]; [Some "O"; Some "O"; Some "O"];
                [None; None; None]] "X" = ((length examples.both_rows + 1) / 2)%nat ∧
  count_symbol [[Some "X"; Some "X"; Some "X"]; [Some "O"; Some "O"; Some "O"];
                [None; None; None]] "O" = (length examples.both_rows / 2)%nat ∧
  (length examples.both_rows ≤ 9)%nat.
Proof.
  apply (alternating_play_counts empty_board).
  - split; [reflexivity | repeat constructor].
  - reflexivity.
  - reflexivity.
Defined.

End core_more.

(** ** The move handler over several requests *)

Section handler_more.
Import core game database main contract session.

(** The row an accepted move leaves. *)
Lemma accepted_row (game_id : Z) (move : MoveCreate) (d : db) (p : plan) (g : game_row) :
  get_game d game_id = Some g →
  validate (Some g) move = Ok p →
  get_game (api_submit_move game_id move d).1 game_id
    = Some (row_after p (db_now d) g).
Proof.
  intros Hg Hv. unfold api_submit_move, resume. rewrite Hg, Hv.
  destruct (persist_spec game_id move p d) as (d' & r & mov & -> & _ & Hrow & _).
  simpl. unfold get_game in *. by rewrite Hrow, Hg.
Qed.

(** A response other than Ok leaves the database as it was: the handler
    raises before its first write or after its last. *)
Lemma resume_cases (g0 : option game_row) (game_id : Z) (move : MoveCreate) (d : db) :
  (∃ p, validate g0 move = Ok p ∧ resume g0 game_id move d = persist game_id move p d) ∨
  ((∀ p, validate g0 move ≠ Ok p) ∧ (resume g0 game_id move d).1 = d ∧
   ∀ out, (resume g0 game_id move d).2 ≠ Ok out).
Proof.
  unfold resume. destruct (validate g0 move) as [p| |] eqn:Hv.
  - left. eauto.
  - right. by repeat split.
  - right. by repeat split.
Qed.

(** X10: after an accepted move the game row has no next turn exactly
    when it has a winner or a draw, and otherwise its next turn is X or
    O; the winner column holds nothing, 'Draw', or the symbol
    [check_win] found. *)
Theorem accepted_move_turn_invariant (game_id : Z) (move : MoveCreate) (d : db) (p : plan) :
  validate (get_game d game_id) move = Ok p →
  ∃ g', get_game (api_submit_move game_id move d).1 game_id = Some g' ∧
        (g_next_turn g' = None ↔ concluded g') ∧
        (g_next_turn g' = None ∨ g_next_turn g' = Some "X" ∨ g_next_turn g' = Some "O") ∧
        (g_winner g' = None ∨ g_winner g' = Some "Draw" ∨
         check_win (new_board p) = Ok (g_winner g')).
Proof.
  intros Hv.
  destruct (advance_step game_id move d p Hv)
    as (g & b & b' & w & dr & g' & Hget & Hb & Hmv & Hw & Hd & Hget' & Hbd & Hfin &
        Hturn & Hwin & Hdraw & Hgo).
  assert (new_board p = b') as ->.
  { apply validate_Ok_inv in Hv as (g1 & b1 & b1' & w1 & dr1 & ? & _ & ? & _ & _ & _ &
      ? & _ & _ & ->). simpl. congruence. }
  exists g'. split; [done|].
  destruct w as [s|].
  - destruct (Hwin ltac:(done)) as (Hgw & Hnt & Hc).
    rewrite Hnt, Hgw. repeat split; auto.
  - destruct dr.
    + destruct (Hdraw eq_refl eq_refl) as (Hgw & Hnt & Hc).
      rewrite Hnt, Hgw. repeat split; auto.
    + destruct (Hgo eq_refl eq_refl) as (Hgw & Hnt).
      unfold concluded. rewrite Hnt, Hgw. simpl. split; [split; discriminate|].
      split; [|by left]. right.
      destruct Hturn as [-> | ->]; auto.
Qed.

Lemma accepted_move_turn_invariant_witness :
  ∃ g', get_game (api_submit_move 1 (examples.move_of 10 0 2)
                    (examples.db_with examples.x_to_win)).1 1 = Some g' ∧
        (g_next_turn g' = None ↔ concluded g').
Proof.
  destruct (accepted_move_turn_invariant 1 (examples.move_of 10 0 2)
              (examples.db_with examples.x_to_win) examples.winning_plan)
    as (g' & Hg & Hiff & _).
  { reflexivity. }
  exists g'. split; [exact Hg | exact Hiff].
Defined.

Lemma run_fixed (game_id : Z) (d : db) (P : result MoveOut → Prop)
    (reqs : list (Z * MoveCreate)) :
  (∀ move, (api_submit_move game_id move d).1 = d ∧ P (api_submit_move game_id move d).2) →
  Forall (λ r, r.1 = game_id) reqs →
  (run d reqs).1 = d ∧ Forall P (run d reqs).2.
Proof.
  intros Hstep. induction 1 as [|[gid move] reqs Hgid _ IH]; simpl; [done|].
  simpl in Hgid. subst gid. destruct (Hstep move) as [Hd HP].
  destruct (api_submit_move game_id move d) as [d1 r]. simpl in *. subst d1.
  destruct (run d reqs) as [d2 rs]. simpl in *. destruct IH as [-> Hrs].
  split; [done|]. by constructor.
Qed.

(** X11: a concluded game is final: whatever requests follow for it,
    whoever sends them and whatever the coordinates, each is answered
    NotAParticipant or GameFinished and the database stays as it is. *)
Theorem concluded_game_is_final (game_id : Z) (d : db) (g : game_row) (b : board)
    (reqs : list (Z * MoveCreate)) :
  get_game d game_id = Some g → concluded g →
  _deserialize_board (g_board g) = Ok b →
  Forall (λ r, r.1 = game_id) reqs →
  (run d reqs).1 = d ∧
  Forall (λ r, r = NotAParticipant ∨ r = GameFinished) (run d reqs).2.
Proof.
  intros Hg Hc Hb. apply run_fixed. intros move.
  unfold api_submit_move, resume, validate. rewrite Hg.
  destruct (bool_decide (player_id move = g_player_x_id g)
            || bool_decide (Some (player_id move) = g_player_o_id g)); simpl.
  - rewrite Hb. simpl. unfold concluded in Hc. rewrite Hc. simpl. auto.
  - auto.
Qed.

Lemma concluded_game_is_final_witness :
  (run (examples.db_with examples.won_game)
     [(1, examples.move_of 10 2 2); (1, examples.move_of 99 0 0)]).1
    = examples.db_with examples.won_game ∧
  Forall (λ r, r = NotAParticipant ∨ r = GameFinished)
    (run (examples.db_with examples.won_game)
       [(1, examples.move_of 10 2 2); (1, examples.move_of 99 0 0)]).2.
Proof.
  eapply (concluded_game_is_final 1 _ examples.won_game).
  - reflexivity.
  - reflexivity.
  - reflexivity.
  - repeat constructor.
Defined.

(** X12: nobody moves twice in a row: on a game row whose board column
    holds a list, after an accepted move that does not conclude the
    game, a request by the same player is answered NotYourTurn and
    changes nothing. *)
Theorem no_two_moves_in_a_row (game_id : Z) (move move2 : MoveCreate) (d : db)
    (p : plan) (g0 : game_row) (b0 : board) :
  get_game d game_id = Some g0 → g_board g0 = BoardList b0 →
  validate (get_game d game_id) move = Ok p → finished p = false →
  player_id move2 = player_id move →
  api_submit_move game_id move2 (api_submit_move game_id move d).1
    = ((api_submit_move game_id move d).1, NotYourTurn).
Proof.
  intros _ _ Hv Hf Hsame.
  pose proof Hv as (g & b & b' & w & dr & Hg & Hp & Hb & Hc & Ht & _ & _ & _ & _ & ->)
    %validate_Ok_inv.
  rewrite Hg in Hv. pose proof (accepted_row game_id move d _ g Hg Hv) as Hrow.
  set (d' := (api_submit_move game_id move d).1) in *.
  simpl in Hf. apply orb_false_elim in Hf as [Hwn ->].
  apply negb_false_iff, bool_decide_eq_true in Hwn as ->.
  unfold api_submit_move at 1. unfold resume, validate. rewrite Hrow. simpl.
  rewrite Hsame. apply participant_bool in Hp. rewrite Hp. simpl.
  rewrite Ht. fold (assigned_symbol g move).
  rewrite bool_decide_eq_false_2; [done|].
  unfold assigned_symbol.
  by destruct (bool_decide (player_id move = g_player_x_id g)).
Qed.

Lemma no_two_moves_in_a_row_witness :
  api_submit_move 1 (examples.move_of 10 2 2)
    (api_submit_move 1 (examples.move_of 10 0 0) (examples.db_with examples.blank_game)).1
  = ((api_submit_move 1 (examples.move_of 10 0 0)
        (examples.db_with examples.blank_game)).1, NotYourTurn).
Proof.
  apply (no_two_moves_in_a_row 1 (examples.move_of 10 0 0) (examples.move_of 10 2 2)
           (examples.db_with examples.blank_game) examples.blank_opening_plan
           examples.blank_game empty_board);
    reflexivity.
Defined.

(** X13: a game whose two seats are held by one player stalls once it is
    O's turn: that player is always given the symbol X, so every request
    for the game is answered NotAParticipant or NotYourTurn and the
    database stays as it is. *)
Theorem shared_seat_game_stalls (game_id : Z) (d : db) (g : game_row) (b : board)
    (reqs : list (Z * MoveCreate)) :
  get_game d game_id = Some g →
  g_player_o_id g = Some (g_player_x_id g) →
  g_next_turn g = Some "O" → ¬ concluded g →
  _deserialize_board (g_board g) = Ok b →
  Forall (λ r, r.1 = game_id) reqs →
  (run d reqs).1 = d ∧
  Forall (λ r, r = NotAParticipant ∨ r = NotYourTurn) (run d reqs).2.
Proof.
  intros Hg Ho Ht Hc Hb. apply run_fixed. intros move.
  unfold api_submit_move, resume, validate. rewrite Hg, Ho, Ht.
  unfold concluded in Hc. apply not_true_is_false in Hc.
  destruct (bool_decide (player_id move = g_player_x_id g)) eqn:Hx; simpl.
  - rewrite Hb. simpl. rewrite Hc. simpl. auto.
  - rewrite bool_decide_eq_false_2; [simpl; auto|].
    apply bool_decide_eq_false in Hx. congruence.
Qed.

Lemma shared_seat_game_stalls_witness :
  (run (examples.db_with examples.solo_game)
     [(1, examples.move_of 10 1 1); (1, examples.move_of 20 1 1)]).1
    = examples.db_with examples.solo_game ∧
  Forall (λ r, r = NotAParticipant ∨ r = NotYourTurn)
    (run (examples.db_with examples.solo_game)
       [(1, examples.move_of 10 1 1); (1, examples.move_of 20 1 1)]).2.
Proof.
  eapply (shared_seat_game_stalls 1 _ examples.solo_game).
  - reflexivity.
  - reflexivity.
  - reflexivity.
  - intros H. vm_compute in H. discriminate.
  - reflexivity.
  - repeat constructor.
Defined.

Lemma replay_app (b : board) (rows1 rows2 : list move_row) :
  replay b (rows1 ++ rows2) = (b' ← replay b rows1; replay b' rows2).
Proof.
  revert b. induction rows1 as [|m rows1 IH]; intros b; simpl; [done|].
  destruct (make_move b (m_x m) (m_y m) (m_symbol m)); simpl; [apply IH|done|done].
Qed.

(** What one request does to the rest of the database: the effect of the
    handler on the game it names, and nothing else. *)
Lemma submit_effect (game_id : Z) (move : MoveCreate) (d : db) :
  (api_submit_move game_id move d).1 = d ∨
  ∃ g p mov,
    get_game d game_id = Some g ∧ validate (Some g) move = Ok p ∧
    get_game (api_submit_move game_id move d).1 game_id
      = Some (row_after p (db_now d) g) ∧
    (∀ k, k ≠ game_id →
       get_game (api_submit_move game_id move d).1 k = get_game d k) ∧
    db_player (api_submit_move game_id move d).1 = db_player d ∧
    db_move (api_submit_move game_id move d).1 = db_move d ++ [mov] ∧
    m_game_id mov = game_id ∧ m_player_id mov = player_id move ∧
    m_x mov = x move ∧ m_y mov = y move ∧ m_symbol mov = player_symbol p.
Proof.
  unfold api_submit_move.
  destruct (resume_cases (get_game d game_id) game_id move d)
    as [(p & Hv & Hrun) | (_ & Hd & _)]; [|by left].
  right. rewrite Hrun.
  destruct (persist_spec game_id move p d) as (d' & r & mov & -> & Hpl & Hrow & Hother &
    _ & Hm & Hmg & Hmp & Hmx & Hmy & Hms & _).
  pose proof Hv as (g & _ & _ & _ & _ & Hg & _)%validate_Ok_inv.
  exists g, p, mov. simpl. unfold get_game in *. rewrite Hg in Hv, Hrow.
  repeat split; try done.
Qed.

(** X14: the stored board is the replay of the game's move rows: if the
    board of a game is what [make_move] gives from a start board along
    the game's recorded moves, in the order they were inserted, then
    this is still so after any sequence of move requests, for this game
    or for others, accepted or rejected. *)
Theorem board_is_replay_of_moves (game_id : Z) (b0 : board)
    (reqs : list (Z * MoveCreate)) :
  ∀ d : db,
    (∃ g b, get_game d game_id = Some g ∧
            _deserialize_board (g_board g) = Ok b ∧
            replay b0 (moves_of game_id d) = Ok b) →
    ∃ g b, get_game (run d reqs).1 game_id = Some g ∧
           _deserialize_board (g_board g) = Ok b ∧
           replay b0 (moves_of game_id (run d reqs).1) = Ok b.
Proof.
  induction reqs as [|[gid move] reqs IH]; intros d Hinv; simpl; [done|].
  destruct (api_submit_move gid move d) as [d1 r] eqn:Hrun.
  specialize (IH d1). destruct (run d1 reqs) as [d2 rs]. simpl in *.
  apply IH. clear IH.
  destruct Hinv as (g & b & Hg & Hb & Hre).
  destruct (submit_effect gid move d) as [Hsame | (g1 & p & mov & Hg1 & Hv & Hrow &
    Hother & _ & Hm & Hmg & _ & Hmx & Hmy & Hms)]; rewrite Hrun in *; cbn [fst] in *.
  { subst d1. eauto. }
  unfold moves_of. rewrite Hm, List.filter_app. simpl. rewrite Hmg.
  destruct (decide (gid = game_id)) as [-> | Hne].
  - rewrite bool_decide_eq_true_2 by done.
    assert (g1 = g) as -> by congruence.
    apply validate_Ok_inv in Hv as (g2 & b2 & b' & w & dr & [= <-] & _ & Hb2 & _ & _ &
      _ & Hmv & _ & _ & ->). simpl in *.
    assert (b2 = b) as -> by congruence.
    eexists _, b'. split; [exact Hrow|]. split; [done|].
    rewrite replay_app. fold (moves_of game_id d). rewrite Hre. simpl.
    rewrite Hmx, Hmy, Hms, Hmv. done.
  - rewrite bool_decide_eq_false_2 by done. rewrite app_nil_r.
    exists g, b. rewrite Hother by done. done.
Qed.

Lemma board_is_replay_of_moves_witness :
  ∃ g b,
    get_game (run (examples.db_with examples.new_game)
                [(1, examples.move_of 10 0 0); (1, examples.move_of 20 0 0);
                 (1, examples.move_of 20 1 1)]).1 1 = Some g ∧
    _deserialize_board (g_board g) = Ok b ∧
    replay examples.all_empty_strings
      (moves_of 1 (run (examples.db_with examples.new_game)
                     [(1, examples.move_of 10 0 0); (1, examples.move_of 20 0 0);
                      (1, examples.move_of 20 1 1)]).1) = Ok b.
Proof.
  apply (board_is_replay_of_moves 1 examples.all_empty_strings).
  exists examples.new_game, examples.all_empty_strings.
  split; [reflexivity|]. split; [vm_compute; reflexivity | reflexivity].
Defined.

(** X15: a move request touches one game only: the players and every
    other game row are as before, the row of the game keeps its id, its
    two players and its creation time, and the move history only grows,
    by at most one row, which belongs to the game. *)
Theorem submit_move_frame (game_id : Z) (move : MoveCreate) (d : db) :
  let d' := (api_submit_move game_id move d).1 in
  db_player d' = db_player d ∧
  (∀ k, k ≠ game_id → get_game d' k = get_game d k) ∧
  (∀ g, get_game d game_id = Some g →
     ∃ g', get_game d' game_id = Some g' ∧ g_id g' = g_id g ∧
           g_player_x_id g' = g_player_x_id g ∧ g_player_o_id g' = g_player_o_id g ∧
           g_created_at g' = g_created_at g) ∧
  (get_game d game_id = None → d' = d) ∧
  ∃ new, db_move d' = db_move d ++ new ∧ (length new ≤ 1)%nat ∧
         Forall (λ m, m_game_id m = game_id) new.
Proof.
  simpl.
  destruct (submit_effect game_id move d) as [-> | (g1 & p & mov & Hg1 & Hv & Hrow &
    Hother & Hpl & Hm & Hmg & _)].
  - repeat split; try done; [eauto 10|].
    exists []. rewrite app_nil_r. repeat split; [simpl; lia | constructor].
  - repeat split; try done.
    + intros g Hg. assert (g1 = g) as -> by congruence. eexists. split; [exact Hrow|]. done.
    + congruence.
    + exists [mov]. repeat split; [done | simpl; lia | by repeat constructor].
Qed.

Lemma submit_move_frame_witness :
  get_game (api_submit_move 1 (examples.move_of 10 0 0)
              (examples.db_with examples.new_game)).1 2
  = get_game (examples.db_with examples.new_game) 2.
Proof.
  destruct (submit_move_frame 1 (examples.move_of 10 0 0)
              (examples.db_with examples.new_game)) as (_ & H & _).
  apply H. lia.
Defined.

End handler_more.

(** ** Players, seats and the game handlers *)

Section lobby_facts.
Import core game database main contract session lobby api registry.

Lemma get_player_by_username_Some (d : db) (u : string) (p : player_row) :
  get_player_by_username d u = Some p →
  db_player d !! p_id p = Some u ∧ p_username p = u.
Proof.
  unfold get_player_by_username.
  destruct (List.find _ _) as [[id u']|] eqn:Hf; [|discriminate].
  apply List.find_some in Hf as [Hin Heq].
  apply bool_decide_eq_true in Heq. simpl in Heq. subst u'.
  apply list_elem_of_In, elem_of_map_to_list in Hin.
  by intros [= <-].
Qed.

Lemma get_player_by_username_None (d : db) (u : string) :
  get_player_by_username d u = None ↔ ∀ i, db_player d !! i ≠ Some u.
Proof.
  unfold get_player_by_username. split.
  - destruct (List.find _ _) as [[id u']|] eqn:Hf; [discriminate|].
    intros _ i Hi.
    pose proof (List.find_none _ _ Hf (i, u)) as Hn.
    rewrite <- list_elem_of_In, elem_of_map_to_list in Hn.
    specialize (Hn Hi). simpl in Hn. by apply bool_decide_eq_false in Hn.
  - intros Hno. destruct (List.find _ _) as [[id u']|] eqn:Hf; [|done].
    apply List.find_some in Hf as [Hin Heq].
    apply bool_decide_eq_true in Heq. simpl in Heq. subst u'.
    apply list_elem_of_In, elem_of_map_to_list in Hin. by destruct (Hno id).
Qed.

(** X16: [get_player_by_username] finds a player exactly when some row
    of the player table holds the name, and the row it returns is such a
    row. *)
Theorem get_player_by_username_spec (d : db) (u : string) :
  (get_player_by_username d u = None ↔ ∀ i, db_player d !! i ≠ Some u) ∧
  (∀ p, get_player_by_username d u = Some p →
        get_player d (p_id p) = Some p ∧ p_username p = u).
Proof.
  split; [apply get_player_by_username_None|].
  intros p Hp. destruct (get_player_by_username_Some d u p Hp) as [Hrow Hu].
  split; [|done]. unfold get_player. rewrite Hrow. destruct p; simpl in *. by subst.
Qed.

Lemma get_player_by_username_spec_witness :
  get_player examples.no_games 20 = Some {| p_id := 20; p_username := "bob" |} ∧
  p_username {| p_id := 20; p_username := "bob" |} = "bob".
Proof.
  destruct (get_player_by_username_spec examples.no_games "bob") as [_ H].
  apply (H {| p_id := 20; p_username := "bob" |}). vm_compute. reflexivity.
Defined.

(** X17: [join_game] succeeds exactly when the game exists and its
    second seat is empty.  Then the stored row is the old row with
    player O set, which is what it returns; otherwise no game row
    changes.  Players, moves and the other games are never touched. *)
Theorem join_game_spec (game_id player_o_id : Z) (d : db) :
  let d' := (join_game game_id player_o_id d).1 in
  let r := (join_game game_id player_o_id d).2 in
  (is_Some r ↔ ∃ g, get_game d game_id = Some g ∧ g_player_o_id g = None) ∧
  (∀ g', r = Some g' →
     get_game d' game_id = Some g' ∧ g_player_o_id g' = Some player_o_id ∧
     ∃ g, get_game d game_id = Some g ∧
          g_id g' = g_id g ∧ g_player_x_id g' = g_player_x_id g ∧
          g_next_turn g' = g_next_turn g ∧ g_board g' = g_board g ∧
          g_winner g' = g_winner g ∧ g_created_at g' = g_created_at g ∧
          g_finished_at g' = g_finished_at g) ∧
  (r = None → db_game d' = db_game d) ∧
  (∀ k, k ≠ game_id → get_game d' k = get_game d k) ∧
  db_player d' = db_player d ∧ db_move d' = db_move d.
Proof.
  unfold join_game, get_game. simpl.
  destruct (db_game d !! game_id) as [g|] eqn:Hg.
  - destruct (g_player_o_id g) as [o|] eqn:Ho; simpl.
    + split; [|done]. split; [by intros [? ?]|].
      intros (g0 & [= <-] & Ho'). congruence.
    + split; [split; eauto|]. split; [|split; [done|split; [|done]]].
      * intros g' [= <-]. split; [apply lookup_insert_eq|]. split; [done|].
        exists g. by repeat split.
      * intros k Hk. by apply lookup_insert_ne.
  - simpl. split; [|done]. split; [by intros [? ?] | by intros (g0 & ? & _)].
Qed.

Lemma join_game_spec_witness :
  get_game (join_game 1 20 (examples.db_with examples.new_game)).1 2
  = get_game (examples.db_with examples.new_game) 2.
Proof.
  destruct (join_game_spec 1 20 (examples.db_with examples.new_game))
    as (_ & _ & _ & H & _).
  apply H. lia.
Defined.

Lemma run_keeps_seats (game_id : Z) (reqs : list (Z * MoveCreate)) :
  ∀ (d : db) (g : game_row),
    get_game d game_id = Some g →
    ∃ g', get_game (run d reqs).1 game_id = Some g' ∧
          g_player_x_id g' = g_player_x_id g ∧ g_player_o_id g' = g_player_o_id g.
Proof.
  induction reqs as [|[gid move] reqs IH]; intros d g Hg; simpl; [eauto|].
  destruct (api_submit_move gid move d) as [d1 r] eqn:Hrun.
  specialize (IH d1). destruct (run d1 reqs) as [d2 rs]. cbn [fst] in *.
  destruct (submit_effect gid move d) as [Hsame | (g1 & p & mov & Hg1 & _ & Hrow &
    Hother & _)]; rewrite Hrun in *; cbn [fst] in *.
  - subst d1. by apply IH.
  - destruct (decide (gid = game_id)) as [-> | Hne].
    + assert (g1 = g) as -> by congruence.
      destruct (IH _ Hrow) as (g' & ? & ? & ?). by exists g'.
    + apply IH. by rewrite Hother.
Qed.

(** X18: the second seat is taken once: after a successful [join_game],
    and after any move requests that follow, a further [join_game] for
    the game returns None and player O is still the one who joined. *)
Theorem second_seat_taken_once (game_id pid pid2 : Z) (d : db) (g1 : game_row)
    (reqs : list (Z * MoveCreate)) :
  (join_game game_id pid d).2 = Some g1 →
  let d2 := (run (join_game game_id pid d).1 reqs).1 in
  (join_game game_id pid2 d2).2 = None ∧
  ∃ g, get_game (join_game game_id pid2 d2).1 game_id = Some g ∧
       g_player_o_id g = Some pid.
Proof.
  intros Hjoin d2.
  assert (∃ g, get_game (join_game game_id pid d).1 game_id = Some g ∧
               g_player_o_id g = Some pid) as (g & Hg & Ho).
  { revert Hjoin. unfold join_game, get_game.
    destruct (db_game d !! game_id) as [g|]; [|discriminate].
    destruct (g_player_o_id g); [discriminate|]. simpl. intros _.
    eexists. split; [apply lookup_insert_eq | done]. }
  destruct (run_keeps_seats game_id reqs _ g Hg) as (g' & Hg' & _ & Ho').
  fold d2 in Hg'. unfold join_game, get_game in *. rewrite Hg', Ho', Ho. simpl.
  split; [done|]. exists g'. split; [done | congruence].
Qed.

Lemma second_seat_taken_once_witness :
  (join_game 1 30
     (run (join_game 1 20 (examples.db_with examples.open_game)).1
        [(1, examples.move_of 10 0 0)]).1).2 = None ∧
  ∃ g, get_game
         (join_game 1 30
            (run (join_game 1 20 (examples.db_with examples.open_game)).1
               [(1, examples.move_of 10 0 0)]).1).1 1 = Some g ∧
       g_player_o_id g = Some 20.
Proof.
  eapply (second_seat_taken_once 1 20 30 (examples.db_with examples.open_game)).
  vm_compute. reflexivity.
Defined.

Lemma create_player_effect (u : string) (s : store) :
  (∀ i, db_player (st_db s) !! i ≠ Some u) →
  let s' := (create_player u s).1 in
  (create_player u s).2 = {| p_id := st_player_seq s; p_username := u |} ∧
  db_player (st_db s') = <[st_player_seq s := u]> (db_player (st_db s)) ∧
  db_game (st_db s') = db_game (st_db s) ∧
  db_move (st_db s') = db_move (st_db s) ∧
  st_player_seq s' = st_player_seq s + 1 ∧
  get_player_by_username (st_db s') u
    = Some {| p_id := st_player_seq s; p_username := u |}.
Proof.
  intros Hfree. simpl. repeat split.
  destruct (get_player_by_username _ u) as [p|] eqn:Hp.
  - apply get_player_by_username_Some in Hp as [Hrow Hu]. simpl in Hrow.
    destruct (decide (p_id p = st_player_seq s)) as [Hid | Hne].
    + destruct p; simpl in *. by subst.
    + rewrite lookup_insert_ne in Hrow by done. by destruct (Hfree (p_id p)).
  - pose proof (proj1 (get_player_by_username_None _ u) Hp (st_player_seq s)) as Hn.
    simpl in Hn. by rewrite lookup_insert_eq in Hn.
Qed.

Lemma create_player_keeps_invariants (u : string) (s : store) :
  (∀ i, db_player (st_db s) !! i ≠ Some u) →
  seq_ahead s → unique_usernames (st_db s) →
  seq_ahead (create_player u s).1 ∧ unique_usernames (st_db (create_player u s).1).
Proof.
  intros Hfree Hseq Huni. unfold seq_ahead, unique_usernames in *. simpl. split.
  - intros i [v Hi]. destruct (decide (i = st_player_seq s)) as [-> | Hne]; [lia|].
    rewrite lookup_insert_ne in Hi by done. specialize (Hseq i ltac:(eauto)). lia.
  - intros i j v Hi Hj.
    destruct (decide (i = st_player_seq s)) as [-> | Hi'];
      destruct (decide (j = st_player_seq s)) as [-> | Hj']; try done.
    + rewrite lookup_insert_eq in Hi. rewrite lookup_insert_ne in Hj by done.
      injection Hi as <-. by destruct (Hfree j).
    + rewrite lookup_insert_eq in Hj. rewrite lookup_insert_ne in Hi by done.
      injection Hj as <-. by destruct (Hfree i).
    + rewrite lookup_insert_ne in Hi, Hj by done. by apply (Huni i j v).
Qed.

(** X19: [api_create_player] answers 409 and changes nothing when the
    name is taken; otherwise it inserts the player under the next id of
    the sequence, keeps every earlier player, and the new player is the
    one [get_player_by_username] finds for the name.  User names stay
    unique and the sequence stays ahead of the ids. *)
Theorem api_create_player_spec (username : string) (s : store) :
  seq_ahead s → unique_usernames (st_db s) →
  let s' := (api_create_player username s).1 in
  let r := (api_create_player username s).2 in
  seq_ahead s' ∧ unique_usernames (st_db s') ∧
  (∀ i u, db_player (st_db s) !! i = Some u → db_player (st_db s') !! i = Some u) ∧
  ((∃ i, db_player (st_db s) !! i = Some username) →
     r = HTTPException 409 "Username already taken" ∧ s' = s) ∧
  ((∀ i, db_player (st_db s) !! i ≠ Some username) →
     r = Ok {| po_id := st_player_seq s; po_username := username |} ∧
     get_player (st_db s') (st_player_seq s)
       = Some {| p_id := st_player_seq s; p_username := username |} ∧
     get_player_by_username (st_db s') username
       = Some {| p_id := st_player_seq s; p_username := username |}).
Proof.
  intros Hseq Huni. unfold api_create_player.
  destruct (get_player_by_username (st_db s) username) as [p|] eqn:Hp.
  - simpl. split; [done|]. split; [done|]. split; [done|]. split; [done|].
    intros Hfree. apply get_player_by_username_Some in Hp as [Hrow _].
    by destruct (Hfree (p_id p)).
  - pose proof (proj1 (get_player_by_username_None _ _) Hp) as Hfree.
    destruct (create_player_keeps_invariants username s Hfree Hseq Huni) as [Hs' Hu'].
    destruct (create_player_effect username s Hfree) as (Hrec & Hpl & _ & _ & _ & Hfind).
    destruct (create_player username s) as [s' rec] eqn:Hcp. simpl in *. subst rec.
    split; [done|]. split; [done|]. split; [|split].
    + intros i u Hi. rewrite Hpl. rewrite lookup_insert_ne; [done|].
      intros <-. specialize (Hseq (st_player_seq s) ltac:(eauto)). lia.
    + intros [i Hi]. by destruct (Hfree i).
    + intros _. split; [done|]. split; [|done].
      unfold get_player. by rewrite Hpl, lookup_insert_eq.
Qed.

Lemma players0_lookup (i : Z) (u : string) :
  examples.players0 !! i = Some u → (i = 10 ∧ u = "alice") ∨ (i = 20 ∧ u = "bob").
Proof.
  unfold examples.players0.
  intros [[<- <-] | [_ [<- <-]%lookup_singleton_Some]]%lookup_insert_Some; auto.
Qed.

Lemma store_with_invariants (g : game_row) :
  seq_ahead (samples.store_with g) ∧ unique_usernames (st_db (samples.store_with g)).
Proof.
  split.
  - intros i [u Hi]. simpl in *. apply players0_lookup in Hi. lia.
  - intros i j u Hi Hj. simpl in *.
    apply players0_lookup in Hi, Hj.
    destruct Hi as [[-> ->] | [-> ->]], Hj as [[-> ?] | [-> ?]]; done.
Qed.

Lemma api_create_player_spec_witness :
  (api_create_player "bob" (samples.store_with examples.new_game)).2
    = HTTPException 409 "Username already taken" ∧
  (api_create_player "bob" (samples.store_with examples.new_game)).1
    = samples.store_with examples.new_game.
Proof.
  destruct (api_create_player_spec "bob" (samples.store_with examples.new_game))
    as (_ & _ & _ & H & _).
  - apply store_with_invariants.
  - apply store_with_invariants.
  - apply H. exists 20. reflexivity.
Defined.

Lemma join_game_tables (game_id pid : Z) (d : db) :
  db_player (join_game game_id pid d).1 = db_player d ∧
  db_move (join_game game_id pid d).1 = db_move d.
Proof.
  unfold join_game. destruct (db_game d !! game_id) as [g|]; [|done].
  by destruct (g_player_o_id g).
Qed.

(** X20: [api_join_game] keeps user names unique and the sequence ahead
    of the ids, whether it finds the player or creates one and whether
    the join succeeds or is refused; it removes no player. *)
Theorem api_join_game_keeps_players (game_id : Z) (username : string) (s : store) :
  seq_ahead s → unique_usernames (st_db s) →
  let s' := (api_join_game game_id username s).1 in
  seq_ahead s' ∧ unique_usernames (st_db s') ∧
  (∀ i u, db_player (st_db s) !! i = Some u → db_player (st_db s') !! i = Some u) ∧
  ∃ i, db_player (st_db s') !! i = Some username.
Proof.
  intros Hseq Huni. unfold api_join_game.
  set (found := get_player_by_username (st_db s) username).
  assert (∃ s1 player,
    match found with Some player => (s, player) | None => create_player username s end
      = (s1, player) ∧
    seq_ahead s1 ∧ unique_usernames (st_db s1) ∧
    (∀ i u, db_player (st_db s) !! i = Some u → db_player (st_db s1) !! i = Some u) ∧
    ∃ i, db_player (st_db s1) !! i = Some username)
    as (s1 & player & -> & Hseq1 & Huni1 & Hkeep & Hname).
  { subst found. destruct (get_player_by_username (st_db s) username) as [p|] eqn:Hp.
    - exists s, p. apply get_player_by_username_Some in Hp as [Hrow _]. eauto 10.
    - pose proof (proj1 (get_player_by_username_None _ _) Hp) as Hfree.
      destruct (create_player_keeps_invariants username s Hfree Hseq Huni) as [Hs' Hu'].
      destruct (create_player_effect username s Hfree) as (_ & Hpl & _).
      destruct (create_player username s) as [s1 rec]. simpl in *.
      exists s1, rec. split; [done|]. split; [done|]. split; [done|]. split.
      + intros i u Hi. rewrite Hpl, lookup_insert_ne; [done|].
        intros <-. specialize (Hseq (st_player_seq s) ltac:(eauto)). lia.
      + exists (st_player_seq s). by rewrite Hpl, lookup_insert_eq. }
  destruct (join_game_tables game_id (p_id player) (st_db s1)) as [Hpl _].
  destruct (join_game game_id (p_id player) (st_db s1)) as [d2 g]. simpl in Hpl.
  assert (seq_ahead {| st_db := d2; st_player_seq := st_player_seq s1 |} ∧
          unique_usernames d2 ∧
          (∀ i u, db_player (st_db s) !! i = Some u → db_player d2 !! i = Some u) ∧
          ∃ i, db_player d2 !! i = Some username) as Hall.
  { unfold seq_ahead, unique_usernames in *. simpl. rewrite Hpl. done. }
  by destruct g.
Qed.

Lemma api_join_game_keeps_players_witness :
  ∃ i, db_player (st_db (api_join_game 1 "carol"
                           (samples.store_with examples.new_game)).1) !! i
       = Some "carol".
Proof.
  destruct (api_join_game_keeps_players 1 "carol" (samples.store_with examples.new_game))
    as (_ & _ & _ & H).
  - apply store_with_invariants.
  - apply store_with_invariants.
  - exact H.
Defined.

(** X21: a refused join still registers the player: when the user name
    is new and the game is missing or has its second seat taken,
    [api_join_game] answers 400 after it has inserted the player under
    the next id of the sequence. *)
Theorem refused_join_registers_player (game_id : Z) (username : string) (s : store) :
  get_player_by_username (st_db s) username = None →
  (∀ g, get_game (st_db s) game_id = Some g → g_player_o_id g ≠ None) →
  let s' := (api_join_game game_id username s).1 in
  (api_join_game game_id username s).2
    = Refused 400 "Game already has two players or does not exist" ∧
  get_player (st_db s') (st_player_seq s)
    = Some {| p_id := st_player_seq s; p_username := username |} ∧
  st_player_seq s' = st_player_seq s + 1 ∧
  db_game (st_db s') = db_game (st_db s).
Proof.
  intros Hp Hfull. unfold api_join_game. rewrite Hp.
  destruct (create_player username s) as [s1 rec] eqn:Hcp.
  assert (s1 = (create_player username s).1) as Hs1 by by rewrite Hcp.
  assert (rec = (create_player username s).2) as Hrec by by rewrite Hcp.
  simpl in Hs1, Hrec. subst s1 rec. simpl.
  unfold join_game, get_game in *. simpl.
  destruct (db_game (st_db s) !! game_id) as [g|] eqn:Hg; simpl.
  - specialize (Hfull g eq_refl). destruct (g_player_o_id g) as [o|]; [|done]. simpl.
    unfold get_player. simpl. by rewrite lookup_insert_eq.
  - unfold get_player. simpl. by rewrite lookup_insert_eq.
Qed.

Lemma refused_join_registers_player_witness :
  (api_join_game 1 "carol" (samples.store_with examples.new_game)).2
    = Refused 400 "Game already has two players or does not exist" ∧
  get_player (st_db (api_join_game 1 "carol" (samples.store_with examples.new_game)).1) 21
    = Some {| p_id := 21; p_username := "carol" |} ∧
  st_player_seq (api_join_game 1 "carol" (samples.store_with examples.new_game)).1
    = 21 + 1 ∧
  db_game (st_db (api_join_game 1 "carol" (samples.store_with examples.new_game)).1)
    = db_game (st_db (samples.store_with examples.new_game)).
Proof.
  apply (refused_join_registers_player 1 "carol" (samples.store_with examples.new_game)).
  - vm_compute. reflexivity.
  - intros g Hg. vm_compute in Hg. injection Hg as <-. discriminate.
Defined.

Lemma _deserialize_board_not_http (bc : board_column) (c : Z) (detail : string) :
  _deserialize_board bc ≠ HTTPException c detail.
Proof. unfold _deserialize_board. by repeat case_match. Qed.

Lemma game_out_not_refused (g : game_row) (px : reply PlayerOut)
    (po : reply (option PlayerOut)) (c : Z) (detail : string) :
  (∀ c' d', px ≠ Refused c' d') → (∀ c' d', po ≠ Refused c' d') →
  game_out g px po ≠ Refused c detail.
Proof.
  intros Hx Ho. unfold game_out.
  destruct px as [a|c1 d1| |]; try done; [|by destruct (Hx c1 d1)].
  destruct po as [b|c2 d2| |]; try done; [|by destruct (Ho c2 d2)].
  destruct (_deserialize_board (g_board g)) as [bd|c3 d3|e] eqn:Hb; try done.
  - by case_match.
  - by destruct (_deserialize_board_not_http (g_board g) c3 d3).
Qed.

(** X22: [api_join_game] gives the second seat of an open game to the
    player it found or created for the user name, and it does not check
    that this player differs from player X: a player who joins their own
    game holds both seats. *)
Theorem api_join_game_takes_seat (game_id : Z) (username : string) (s : store)
    (g : game_row) :
  get_game (st_db s) game_id = Some g → g_player_o_id g = None →
  let pid := match get_player_by_username (st_db s) username with
             | Some p => p_id p
             | None => st_player_seq s
             end in
  ∃ g', get_game (st_db (api_join_game game_id username s).1) game_id = Some g' ∧
        g_player_o_id g' = Some pid ∧
        g_player_x_id g' = g_player_x_id g ∧
        (pid = g_player_x_id g → g_player_o_id g' = Some (g_player_x_id g')) ∧
        (api_join_game game_id username s).2
          ≠ Refused 400 "Game already has two players or does not exist".
Proof.
  intros Hg Ho. unfold api_join_game.
  destruct (get_player_by_username (st_db s) username) as [p|] eqn:Hp; simpl.
  - unfold join_game, get_game in *. rewrite Hg, Ho. simpl.
    eexists. split; [apply lookup_insert_eq|]. simpl.
    split; [done|]. split; [done|]. split; [congruence|].
    apply game_out_not_refused; intros c' d'; unfold player_out; by repeat case_match.
  - unfold join_game, get_game in *. simpl. rewrite Hg, Ho. simpl.
    eexists. split; [apply lookup_insert_eq|]. simpl.
    split; [done|]. split; [done|]. split; [congruence|].
    apply game_out_not_refused; intros c' d'; unfold player_out; by repeat case_match.
Qed.

Lemma api_join_game_takes_seat_witness :
  ∃ g', get_game (st_db (api_join_game 1 "alice"
                           (samples.store_with examples.open_game)).1) 1 = Some g' ∧
        g_player_o_id g' = Some 10 ∧ g_player_x_id g' = 10.
Proof.
  destruct (api_join_game_takes_seat 1 "alice" (samples.store_with examples.open_game)
              examples.open_game) as (g' & Hg & Ho & Hx & _).
  - reflexivity.
  - reflexivity.
  - exists g'. split; [exact Hg|]. split; [exact Ho | exact Hx].
Defined.

Lemma valid_all_empty_strings (nt w : option string) :
  valid_game_out examples.all_empty_strings nt w = false.
Proof. vm_compute. reflexivity. Qed.

Lemma game_out_new_board (g : game_row) (px : reply PlayerOut)
    (po : reply (option PlayerOut)) :
  g_board g = BoardText new_board_text →
  (∀ out, game_out g px po ≠ Sent out) ∧
  (∀ a b, px = Sent a → po = Sent b → game_out g px po = ValidationError).
Proof.
  intros Hb. unfold game_out. rewrite Hb, new_board_text_loads, valid_all_empty_strings.
  split.
  - intros out. by destruct px, po.
  - by intros a b -> ->.
Qed.

(** X23: [api_create_game] answers 404 and writes nothing when a named
    player, X or O, with a non-zero id does not exist; X is checked
    first. *)
Theorem api_create_game_missing_player (player_x_id : Z) (player_o_id : option Z)
    (d : db) :
  player_missing d (Some player_x_id) = true ∨ player_missing d player_o_id = true →
  (api_create_game player_x_id player_o_id d).1 = d ∧
  ∃ pid, (api_create_game player_x_id player_o_id d).2 = Refused 404 (not_found pid) ∧
         pid ≠ 0 ∧ get_player d pid = None ∧
         (pid = player_x_id ∨
          (player_missing d (Some player_x_id) = false ∧ player_o_id = Some pid)).
Proof.
  assert (∀ pid, player_missing d (Some pid) = true → pid ≠ 0 ∧ get_player d pid = None)
    as Hmiss.
  { intros pid. simpl. intros [H0 Hp]%andb_true_iff.
    apply negb_true_iff, bool_decide_eq_false in H0.
    by destruct (get_player d pid). }
  intros Hor. unfold api_create_game.
  destruct (player_missing d (Some player_x_id)) eqn:Hx.
  - split; [done|]. exists player_x_id. destruct (Hmiss _ Hx). auto.
  - destruct Hor as [? | Ho]; [done|]. rewrite Ho. split; [done|].
    destruct player_o_id as [o|]; [|done].
    exists o. destruct (Hmiss _ Ho). simpl. repeat split; auto.
Qed.

Lemma api_create_game_missing_player_witness :
  (api_create_game 10 (Some 77) examples.no_games).1 = examples.no_games ∧
  ∃ pid, (api_create_game 10 (Some 77) examples.no_games).2
           = Refused 404 (not_found pid) ∧
         pid ≠ 0 ∧ get_player examples.no_games pid = None ∧
         (pid = 10 ∨
          (player_missing examples.no_games (Some 10) = false ∧ Some 77 = Some pid)).
Proof.
  apply (api_create_game_missing_player 10 (Some 77) examples.no_games).
  right. reflexivity.
Defined.

(** X24: [api_create_game] never returns a response.  When the players
    it names exist, it inserts the game row, with X to move, no winner
    and the board text of empty strings, and then [GameOut] rejects that
    board, whose cells are neither None nor 'X' nor 'O': the call ends in
    a ValidationError with the game created. *)
Theorem api_create_game_never_responds (player_x_id : Z) (player_o_id : option Z)
    (d : db) :
  (∀ out, (api_create_game player_x_id player_o_id d).2 ≠ Sent out) ∧
  (is_Some (get_player d player_x_id) → player_missing d player_o_id = false →
   (api_create_game player_x_id player_o_id d).2 = ValidationError ∧
   ∃ g, get_game (api_create_game player_x_id player_o_id d).1 (db_game_seq d) = Some g ∧
        g_player_x_id g = player_x_id ∧ g_player_o_id g = player_o_id ∧
        g_next_turn g = Some "X" ∧ g_winner g = None ∧
        g_board g = BoardText new_board_text).
Proof.
  unfold api_create_game. split.
  - intros out.
    destruct (player_missing d (Some player_x_id)); [done|].
    destruct (player_missing d player_o_id); [done|].
    destruct (create_game player_x_id player_o_id d) as [d' g] eqn:Hc.
    assert (g_board g = BoardText new_board_text) as Hb.
    { unfold create_game in Hc. injection Hc as Hd <-. reflexivity. }
    apply (game_out_new_board g _ _ Hb).
  - intros [p Hp] Ho.
    assert (player_missing d (Some player_x_id) = false) as ->.
    { simpl. rewrite Hp. apply andb_false_r. }
    rewrite Ho. unfold create_game. cbn [fst snd].
    split.
    + match goal with
      | |- game_out ?g ?px ?po = _ =>
          assert (∃ a, px = Sent a) as [a Ha];
            [|assert (∃ b, po = Sent b) as [b Hb];
              [|exact (proj2 (game_out_new_board g px po eq_refl) a b Ha Hb)]]
      end.
      * unfold get_player in *. cbn [db_player g_player_x_id].
        destruct (db_player d !! player_x_id); [by eexists | discriminate].
      * unfold optional_player_out. repeat case_match; by eexists.
    + eexists. unfold get_game. cbn [db_game]. split; [apply lookup_insert_eq|]. done.
Qed.

Lemma api_create_game_never_responds_witness :
  (api_create_game 10 (Some 20) examples.no_games).2 = ValidationError ∧
  ∃ g, get_game (api_create_game 10 (Some 20) examples.no_games).1
         (db_game_seq examples.no_games) = Some g ∧
       g_player_x_id g = 10 ∧ g_player_o_id g = Some 20 ∧
       g_next_turn g = Some "X" ∧ g_winner g = None ∧
       g_board g = BoardText new_board_text.
Proof.
  destruct (api_create_game_never_responds 10 (Some 20) examples.no_games) as [_ H].
  apply H.
  - vm_compute. eexists. reflexivity.
  - reflexivity.
Defined.

Lemma legacy_board_cells (a0 a1 a2 b0 b1 b2 c0 c1 c2 : cell) :
  legacy.legacy_board [[a0; a1; a2]; [b0; b1; b2]; [c0; c1; c2]] ↔
  legacy.legacy_cell a0 ∧ legacy.legacy_cell a1 ∧ legacy.legacy_cell a2 ∧
  legacy.legacy_cell b0 ∧ legacy.legacy_cell b1 ∧ legacy.legacy_cell b2 ∧
  legacy.legacy_cell c0 ∧ legacy.legacy_cell c1 ∧ legacy.legacy_cell c2.
Proof.
  unfold legacy.legacy_board. rewrite !Forall_cons, !Forall_nil.
  pose proof (is_3x3_cells a0 a1 a2 b0 b1 b2 c0 c1 c2). tauto.
Qed.

Lemma make_move_legacy (b b' : board) (x y : Z) (s : string) :
  legacy.legacy_board b → 0 ≤ x < 3 → 0 ≤ y < 3 → s = "X" ∨ s = "O" →
  make_move b x y s = Ok b' → legacy.legacy_board b'.
Proof.
  intros Hl Hx Hy Hs Hmv.
  destruct (is_3x3_inv b (proj1 Hl)) as (a0&a1&a2&b0&b1&b2&c0&c1&c2&->).
  apply legacy_board_cells in Hl as (?&?&?&?&?&?&?&?&?).
  assert (legacy.legacy_cell (Some s)) by (destruct Hs as [-> | ->]; unfold legacy.legacy_cell; auto).
  range3 x; range3 y; cbv in Hmv; injection Hmv as <-;
    apply legacy_board_cells; by repeat split.
Qed.

Lemma run_keeps_legacy (game_id : Z) (reqs : list (Z * MoveCreate)) :
  ∀ d : db,
    (∃ g b, get_game d game_id = Some g ∧ _deserialize_board (g_board g) = Ok b ∧
            legacy.legacy_board b) →
    ∃ g b, get_game (run d reqs).1 game_id = Some g ∧
           _deserialize_board (g_board g) = Ok b ∧ legacy.legacy_board b.
Proof.
  induction reqs as [|[gid move] reqs IH]; intros d Hinv; simpl; [done|].
  destruct (api_submit_move gid move d) as [d1 r] eqn:Hrun.
  specialize (IH d1). destruct (run d1 reqs) as [d2 rs]. cbn [fst] in *.
  apply IH. clear IH. destruct Hinv as (g & b & Hg & Hb & Hl).
  destruct (submit_effect gid move d) as [Hsame | (g1 & p & mov & Hg1 & Hv & Hrow &
    Hother & _)]; rewrite Hrun in *; cbn [fst] in *.
  { subst d1. eauto. }
  destruct (decide (gid = game_id)) as [-> | Hne].
  - assert (g1 = g) as -> by congruence.
    apply validate_Ok_inv in Hv as (g2 & b2 & b' & w & dr & [= <-] & _ & Hb2 & _ & _ &
      Hvalid & Hmv & _ & _ & ->).
    assert (b2 = b) as -> by congruence.
    apply is_valid_move_true_range in Hvalid as [Hx Hy].
    eexists _, b'. split; [exact Hrow|]. split; [done|].
    apply (make_move_legacy b b' (x move) (y move) (assigned_symbol g move)); try done.
    unfold assigned_symbol.
    destruct (bool_decide (player_id move = g_player_x_id g)); auto.
  - exists g, b. by rewrite Hother.
Qed.

Lemma legacy_valid_full (b : board) :
  legacy.legacy_board b → forallb (forallb is_symbol_or_none) b = true →
  tally.count_played b = 9%nat ∧ ∀ x y, is_valid_move b x y = Ok false.
Proof.
  intros Hl Hvalid.
  destruct (is_3x3_inv b (proj1 Hl)) as (a0&a1&a2&b0&b1&b2&c0&c1&c2&->).
  apply legacy_board_cells in Hl as (?&?&?&?&?&?&?&?&?).
  simpl in Hvalid. rewrite !andb_true_iff in Hvalid.
  assert (∀ c, legacy.legacy_cell c → is_symbol_or_none c = true → is_empty_cell c = false)
    as Hfull.
  { intros c [-> | [-> | ->]]; [discriminate | done | done]. }
  assert (is_empty_cell a0 = false ∧ is_empty_cell a1 = false ∧ is_empty_cell a2 = false ∧
          is_empty_cell b0 = false ∧ is_empty_cell b1 = false ∧ is_empty_cell b2 = false ∧
          is_empty_cell c0 = false ∧ is_empty_cell c1 = false ∧ is_empty_cell c2 = false)
    as (E0&E1&E2&E3&E4&E5&E6&E7&E8) by (repeat split; apply Hfull; tauto).
  split.
  - unfold tally.count_played. simpl. by rewrite E0, E1, E2, E3, E4, E5, E6, E7, E8.
  - intros x y. unfold is_valid_move.
    destruct ((0 <=? x) && (x <? 3) && (0 <=? y) && (y <? 3)) eqn:Hr; [|done].
    apply in_range_iff in Hr as [Hx Hy].
    range3 x; range3 y; cbv -[is_empty_cell]; by f_equal.
Qed.

(** X25: a game whose board came from the board text of [create_game]
    (cells are the empty string or a symbol) can be read through
    [api_get_game] only once the board is full: after any sequence of
    move requests, a response is sent only if all nine cells are played
    and no move is valid; until then [GameOut] rejects the board. *)
Theorem api_get_game_only_when_full (game_id : Z) (d : db)
    (reqs : list (Z * MoveCreate)) (out : GameOut) :
  (∃ g b, get_game d game_id = Some g ∧ _deserialize_board (g_board g) = Ok b ∧
          legacy.legacy_board b) →
  api_get_game game_id (run d reqs).1 = Sent out →
  tally.count_played (go_board out) = 9%nat ∧
  (∀ x y, is_valid_move (go_board out) x y = Ok false) ∧
  ∃ g, get_game (run d reqs).1 game_id = Some g ∧
       _deserialize_board (g_board g) = Ok (go_board out).
Proof.
  intros Hinv Hsent.
  destruct (run_keeps_legacy game_id reqs d Hinv) as (g & b & Hg & Hb & Hl).
  unfold api_get_game in Hsent. rewrite Hg in Hsent. unfold game_out in Hsent.
  destruct (player_out _) as [px| | |]; try discriminate.
  destruct (optional_player_out _ _) as [po| | |]; try discriminate.
  rewrite Hb in Hsent.
  destruct (valid_game_out b (g_next_turn g) (g_winner g)) eqn:Hvalid; [|discriminate].
  injection Hsent as <-. simpl.
  unfold valid_game_out in Hvalid. rewrite !andb_true_iff in Hvalid.
  destruct Hvalid as [[Hcells _] _].
  destruct (legacy_valid_full b Hl Hcells) as [Hcount Hmoves].
  split; [done|]. split; [done|]. eauto.
Qed.

Lemma api_get_game_only_when_full_witness :
  ∃ out, api_get_game 1 (examples.db_with legacy.drawn_game) = Sent out ∧
         tally.count_played (go_board out) = 9%nat.
Proof.
  eexists. split; [vm_compute; reflexivity|].
  eapply proj1, (api_get_game_only_when_full 1 (examples.db_with legacy.drawn_game) []).
  - eexists legacy.drawn_game, _. split; [reflexivity|]. split; [reflexivity|].
    apply legacy_board_cells. unfold legacy.legacy_cell. repeat split; auto.
  - vm_compute. reflexivity.
Defined.

End lobby_facts.
